(** * keyof: typed attribute paths, captured by a proxy and replayed on values

    A shallow embedding of [src/keyof/keyof.py]: the path-capturing proxy
    [_PathProxy], the helper [nn] and the path value [KeyOf] with its replay
    ([from_]), introspection, renderings and comparison.

    Conventions of the embedding.
    - A Python [str] is a [string] read as the sequence of its code points;
      one [ascii] is one code point, so the strings covered are those whose
      code points lie in U+0000..U+00FF.
    - A tuple of segments is a [list string].
    - A call that can raise returns a [result]: [Return v] or [Raise e].
    - The sentinel [_MISSING] of [from_] is [None] in [option value];
      an explicit default [d], Python's [None] included, is [Some d].
    - [str] of an integer and [int] of a string are modelled within the
      interpreter's limit on the number of digits (4300 by default, never
      set below 640); statements about integer keys carry that bound. *)

From Stdlib Require Import String Ascii List ZArith Bool Arith Lia.
From Stdlib Require Import DecimalString DecimalPos.
Import ListNotations.
Local Open Scope string_scope.

Set Warnings "-register-all".

(** ** Exceptions and results *)

(** The exception classes the code names, and [OtherError cls] for an
    exception of any other class [cls] that code of the caller may raise. *)

Inductive exn : Type :=
| AttributeError (msg : string)
| TypeError (msg : string)
| ValueError (msg : string)
| KeyError (msg : string)
| IndexError (msg : string)
| OtherError (cls : string) (msg : string).

Inductive result (A : Type) : Type :=
| Return (a : A)
| Raise (e : exn).

Arguments Return {A} a.
Arguments Raise {A} e.

Definition bind {A B : Type} (r : result A) (k : A -> result B) : result B :=
  match r with
  | Return a => k a
  | Raise e => Raise e
  end.

Notation "x <- r ;; k" := (bind r (fun x => k))
  (at level 61, r at next level, right associativity).

(** ** Python values met during replay *)

(** Keys of subscription: a string or an integer. *)
Inductive dkey : Type :=
| KStr (s : string)
| KInt (z : Z).

Definition dkey_eqb (a b : dkey) : bool :=
  match a, b with
  | KStr s, KStr t => String.eqb s t
  | KInt m, KInt n => Z.eqb m n
  | _, _ => false
  end.

(** [VObj cls fields items] is an instance of a user class [cls] with the
    instance attributes [fields]; [items] is [Some m] when the class also
    answers subscription from the mapping [m] (a record that is mapping-like
    too) and [None] when it has no [__getitem__].  [VOpaque cls] is any other
    object (a bound method, a float, a set, ...): it is not subscriptable. *)
Inductive value : Type :=
| VNone
| VBool (b : bool)
| VInt (z : Z)
| VStr (s : string)
| VList (elems : list value)
| VTuple (elems : list value)
| VDict (entries : list (dkey * value))
| VObj (cls : string) (fields : list (string * value))
       (items : option (list (dkey * value)))
| VOpaque (cls : string).

(** [type(v).__name__] *)
Definition type_name (v : value) : string :=
  match v with
  | VNone => "NoneType"
  | VBool _ => "bool"
  | VInt _ => "int"
  | VStr _ => "str"
  | VList _ => "list"
  | VTuple _ => "tuple"
  | VDict _ => "dict"
  | VObj cls _ _ => cls
  | VOpaque cls => cls
  end.

(** [v is None] *)
Definition is_None (v : value) : bool :=
  match v with
  | VNone => true
  | _ => false
  end.

(** [isinstance(v, (list, tuple, str))] *)
Definition isinstance_seq (v : value) : bool :=
  match v with
  | VList _ | VTuple _ | VStr _ => true
  | _ => false
  end.

(** ** Strings *)

(** [sep.join(parts)] *)
Fixpoint join (sep : string) (parts : list string) : string :=
  match parts with
  | [] => ""
  | [p] => p
  | p :: ps => p ++ sep ++ join sep ps
  end.

(** [s.startswith(p)] *)
Fixpoint startswith (p s : string) : bool :=
  match p, s with
  | EmptyString, _ => true
  | String a p', String b s' => Ascii.eqb a b && startswith p' s'
  | String _ _, EmptyString => false
  end.

(** [s.endswith(p)]: [p] is what is left of [s] after dropping
    [len(s) - len(p)] characters. *)
Fixpoint drop (n : nat) (s : string) : string :=
  match n, s with
  | O, _ => s
  | S n', String _ s' => drop n' s'
  | S _, EmptyString => EmptyString
  end.

Definition endswith (p s : string) : bool :=
  (String.length p <=? String.length s)%nat
  && String.eqb (drop (String.length s - String.length p) s) p.

(** Decimal digits U+0030..U+0039. *)
Definition is_decimal (c : ascii) : bool :=
  ((48 <=? nat_of_ascii c) && (nat_of_ascii c <=? 57))%nat.

(** The characters Unicode gives the property Numeric_Type=Digit or Decimal:
    below U+0100 these are the decimal digits and the superscripts
    U+00B2, U+00B3 and U+00B9. *)
Definition is_digit_char (c : ascii) : bool :=
  is_decimal c
  || (nat_of_ascii c =? 178)%nat || (nat_of_ascii c =? 179)%nat
  || (nat_of_ascii c =? 185)%nat.

Fixpoint all_chars (f : ascii -> bool) (s : string) : bool :=
  match s with
  | EmptyString => true
  | String c s' => f c && all_chars f s'
  end.

(** [s.isdigit()]: at least one character, and every character a digit. *)
Definition isdigit (s : string) : bool :=
  match s with
  | EmptyString => false
  | _ => all_chars is_digit_char s
  end.

Fixpoint decimal_value (acc : Z) (s : string) : Z :=
  match s with
  | EmptyString => acc
  | String c s' => decimal_value (10 * acc + (Z.of_nat (nat_of_ascii c) - 48)) s'
  end.

(** [int(s)] on the strings [from_] passes to it, those with [s.isdigit()]:
    a string of decimal digits is read in base ten, any other character is
    refused with [ValueError].  The interpreter also refuses, with
    [ValueError], a string of more digits than its limit allows; the
    definition covers the strings within the limit. *)
Definition int_ (s : string) : result Z :=
  match s with
  | EmptyString => Raise (ValueError ("invalid literal for int() with base 10: '" ++ s ++ "'"))
  | _ =>
      if all_chars is_decimal s then Return (decimal_value 0 s)
      else Raise (ValueError ("invalid literal for int() with base 10: '" ++ s ++ "'"))
  end.

(** [str(key)] for a string or an integer key.  The interpreter refuses,
    with [ValueError], an integer of more digits than its limit allows; the
    definition covers the integers within the limit (see [small_int]). *)
Definition str_ (k : dkey) : string :=
  match k with
  | KStr s => s
  | KInt z => NilZero.string_of_int (Z.to_int z)
  end.

(** The integers of at most 640 decimal digits: [str] and [int] convert
    them under every setting of the digit limit, which is either switched off
    or at least 640. *)
Definition small_int (n : Z) : bool := (Z.abs n <? 10 ^ 640)%Z.

Definition key_in_range (key : dkey) : bool :=
  match key with
  | KStr _ => true
  | KInt n => small_int n
  end.

(** ** Tuples, lists and mappings *)

(** [t[i]] on a sequence with Python's index rule: a negative index counts
    from the end, an index outside the sequence is refused. *)
Definition seq_getitem {A : Type} (kind : string) (t : list A) (i : Z) : result A :=
  let n := Z.of_nat (List.length t) in
  let j := if (i <? 0)%Z then (i + n)%Z else i in
  if ((0 <=? j) && (j <? n))%Z then
    match nth_error t (Z.to_nat j) with
    | Some x => Return x
    | None => Raise (IndexError (kind ++ " index out of range"))
    end
  else Raise (IndexError (kind ++ " index out of range")).

(** [t[:stop]] *)
Definition slice_to {A : Type} (t : list A) (stop : Z) : list A :=
  let n := Z.of_nat (List.length t) in
  let j := if (stop <? 0)%Z then Z.max 0 (stop + n) else Z.min stop n in
  firstn (Z.to_nat j) t.

(** [t1 == t2] on tuples of strings *)
Fixpoint tuple_eqb (t1 t2 : list string) : bool :=
  match t1, t2 with
  | [], [] => true
  | a :: t1', b :: t2' => String.eqb a b && tuple_eqb t1' t2'
  | _, _ => false
  end.

(** [s1 < s2] on sequences, as Python orders strings and tuples: the first
    position where the two differ decides, and a proper prefix comes first. *)
Fixpoint seq_ltb {A : Type} (eqb ltb : A -> A -> bool) (s1 s2 : list A) : bool :=
  match s1, s2 with
  | [], [] => false
  | [], _ :: _ => true
  | _ :: _, [] => false
  | a :: s1', b :: s2' => if eqb a b then seq_ltb eqb ltb s1' s2' else ltb a b
  end.

(** Characters compare by code point. *)
Definition char_ltb (a b : ascii) : bool := (nat_of_ascii a <? nat_of_ascii b)%nat.

(** [s1 < s2] on strings *)
Definition str_ltb (s1 s2 : string) : bool :=
  seq_ltb Ascii.eqb char_ltb (list_ascii_of_string s1) (list_ascii_of_string s2).

(** [t1 < t2] on tuples of strings *)
Definition tuple_ltb (t1 t2 : list string) : bool :=
  seq_ltb String.eqb str_ltb t1 t2.

Fixpoint lookup {K V : Type} (eqb : K -> K -> bool) (k : K) (m : list (K * V)) : option V :=
  match m with
  | [] => None
  | (k', v) :: m' => if eqb k k' then Some v else lookup eqb k m'
  end.

Definition string_chars (s : string) : list string :=
  List.map (fun c => String c EmptyString) (list_ascii_of_string s).

Definition mapping_getitem (m : list (dkey * value)) (k : dkey) : result value :=
  match lookup dkey_eqb k m with
  | Some v => Return v
  | None => Raise (KeyError (str_ k))
  end.

(** [o[k]] *)
Definition getitem (o : value) (k : dkey) : result value :=
  match o, k with
  | VList l, KInt i => seq_getitem "list" l i
  | VList _, KStr _ => Raise (TypeError "list indices must be integers or slices, not str")
  | VTuple l, KInt i => seq_getitem "tuple" l i
  | VTuple _, KStr _ => Raise (TypeError "tuple indices must be integers or slices, not str")
  | VStr s, KInt i => c <- seq_getitem "string" (string_chars s) i ;; Return (VStr c)
  | VStr _, KStr _ => Raise (TypeError "string indices must be integers, not 'str'")
  | VDict m, _ => mapping_getitem m k
  | VObj _ _ (Some m), _ => mapping_getitem m k
  | _, _ => Raise (TypeError ("'" ++ type_name o ++ "' object is not subscriptable"))
  end.

(** ** The path-capturing proxy *)

Module _PathProxy.

Record t : Type := mk { _parts : list string }.

Definition __init__ (parts : list string) : t := mk parts.

Definition __getattr__ (self : t) (name : string) : result t :=
  if startswith "__" name && endswith "__" name then
    Raise (AttributeError name)
  else Return (__init__ (_parts self ++ [name])).

Definition __getitem__ (self : t) (key : dkey) : t :=
  __init__ (_parts self ++ [str_ key]).

Definition __setattr__ (self : t) (name : string) (v : value) : result unit :=
  Raise (TypeError "_PathProxy is read-only").

End _PathProxy.

(** What a selector hands back: a proxy, or a plain value. *)
Inductive selected : Type :=
| Proxy (p : _PathProxy.t)
| Plain (v : value).

(** [self.name] on a proxy, the attribute access itself.  Normal lookup
    comes first: it finds the slot [_parts], and it finds what the class and
    [object] define ([__class__], [__init__], [__doc__], ...; the table
    [type_attr] belongs to the interpreter).  Only a name normal lookup does
    not find reaches the hook [__getattr__]. *)
Definition proxy_attribute (type_attr : string -> option value)
           (self : _PathProxy.t) (name : string) : result selected :=
  if String.eqb name "_parts" then
    Return (Plain (VTuple (List.map VStr (_PathProxy._parts self))))
  else
    match type_attr name with
    | Some v => Return (Plain v)
    | None => p <- _PathProxy.__getattr__ self name ;; Return (Proxy p)
    end.

(** The names of a proxy that end in the hook. *)
Definition hook_name (type_attr : string -> option value) (name : string) : bool :=
  negb (String.eqb name "_parts")
  && match type_attr name with
     | Some _ => false
     | None => true
     end.

Module _NonNull.

Definition __call__ (v : selected) : selected := v.

Definition __ror__ (v : selected) : selected := v.

End _NonNull.

(** The helper class local to [KeyOf.format]. *)
Module _JoinHelper.

Record t : Type := mk { _parts : list string }.

Definition __init__ (parts : list string) : t := mk parts.

(** [sep.join(parts)], under a name the method below does not hide. *)
Definition str_join (sep : string) (parts : list string) : string := join sep parts.

(** [join(self, sep=".")]: [None] stands for the omitted argument. *)
Definition join (self : t) (sep : option string) : string :=
  match sep with
  | Some sep => str_join sep (_parts self)
  | None => str_join "." (_parts self)
  end.

Definition __format__ (self : t) (spec : string) : string := join self None.

End _JoinHelper.

(** ** The path value *)

Module KeyOf.

Record t : Type := mk { _parts : list string }.

(** *** Construction *)

Definition __init__ (selector : _PathProxy.t -> result selected) : result t :=
  proxy <- selector (_PathProxy.__init__ []) ;;
  match proxy with
  | Proxy p => Return (mk (_PathProxy._parts p))
  | Plain _ =>
      Raise (TypeError
        ("KeyOf selector must return a property access chain, not a plain value. "
         ++ "Use  KeyOf(lambda x: x.some.attribute)  not  KeyOf(lambda x: 'literal')."))
  end.

(** *** Value retrieval *)

Section Replay.

(** What normal attribute lookup finds on the class of a value, for the
    names no instance attribute shadows: methods and other class-level names
    ([dict.keys], [str.upper], [int.real], the methods of a user class, ...).
    The table belongs to the Python runtime and to the classes of the
    caller; replay is stated for every such table. *)
Variable class_attr : value -> string -> option value.

Definition instance_attr (o : value) (name : string) : option value :=
  match o with
  | VObj _ fields _ => lookup String.eqb name fields
  | _ => None
  end.

(** [getattr(o, name)] *)
Definition getattr (o : value) (name : string) : result value :=
  match instance_attr o name with
  | Some v => Return v
  | None =>
      match class_attr o name with
      | Some v => Return v
      | None =>
          Raise (AttributeError
            ("'" ++ type_name o ++ "' object has no attribute '" ++ name ++ "'"))
      end
  end.

(** The body of the inner [try]: item access on [current]. *)
Definition item_access (current : value) (part : string) : result value :=
  if isinstance_seq current && isdigit part then
    n <- int_ part ;; getitem current (KInt n)
  else getitem current (KStr part).

(** [except (KeyError, IndexError, TypeError)] *)
Definition lookup_error (e : exn) : bool :=
  match e with
  | KeyError _ | IndexError _ | TypeError _ => true
  | _ => false
  end.

Definition msg_on_None (parts : list string) (obj : value) (i : nat) (part : string) : string :=
  "Cannot resolve '" ++ part ++ "' on None (reached via '"
  ++ join "." (slice_to parts (Z.of_nat i)) ++ "' on " ++ type_name obj ++ ")".

Definition msg_unresolved (parts : list string) (current : value) (i : nat) (part : string) : string :=
  "Cannot resolve '" ++ part ++ "' on " ++ type_name current
  ++ " (path: '" ++ join "." (slice_to parts (Z.of_nat i)) ++ "')".

(** The loop of [from_] over [enumerate(self._parts)]: [rest] holds the
    segments from position [i] on, [current] the value reached so far. *)
Fixpoint from_loop (parts : list string) (obj : value) (default : option value)
         (i : nat) (rest : list string) (current : value) : result value :=
  match rest with
  | [] => Return current
  | part :: rest' =>
      if is_None current then
        match default with
        | None => Raise (AttributeError (msg_on_None parts obj i part))
        | Some d => Return d
        end
      else
        match getattr current part with
        | Return v => from_loop parts obj default (S i) rest' v
        | Raise (AttributeError _) =>
            match item_access current part with
            | Return v => from_loop parts obj default (S i) rest' v
            | Raise e =>
                if lookup_error e then
                  match default with
                  | None => Raise (AttributeError (msg_unresolved parts current i part))
                  | Some d => Return d
                  end
                else Raise e
            end
        | Raise e => Raise e
        end
  end.

Definition from_ (self : t) (obj : value) (default : option value) : result value :=
  from_loop (_parts self) obj default 0 (_parts self) obj.

End Replay.

(** *** Value retrieval on any object *)

Section ReplayWith.

(** [getattr] and subscription as the classes of the values at hand make
    them: attribute access runs properties and hooks of those classes, and
    subscription runs their [__getitem__], so either may raise anything. *)
Variable getattr_fn : value -> string -> result value.
Variable getitem_fn : value -> dkey -> result value.

Definition item_access_with (current : value) (part : string) : result value :=
  if isinstance_seq current && isdigit part then
    n <- int_ part ;; getitem_fn current (KInt n)
  else getitem_fn current (KStr part).

Fixpoint from_loop_with (parts : list string) (obj : value) (default : option value)
         (i : nat) (rest : list string) (current : value) : result value :=
  match rest with
  | [] => Return current
  | part :: rest' =>
      if is_None current then
        match default with
        | None => Raise (AttributeError (msg_on_None parts obj i part))
        | Some d => Return d
        end
      else
        match getattr_fn current part with
        | Return v => from_loop_with parts obj default (S i) rest' v
        | Raise (AttributeError _) =>
            match item_access_with current part with
            | Return v => from_loop_with parts obj default (S i) rest' v
            | Raise e =>
                if lookup_error e then
                  match default with
                  | None => Raise (AttributeError (msg_unresolved parts current i part))
                  | Some d => Return d
                  end
                else Raise e
            end
        | Raise e => Raise e
        end
  end.

Definition from_with (self : t) (obj : value) (default : option value) : result value :=
  from_loop_with (_parts self) obj default 0 (_parts self) obj.

End ReplayWith.

(** *** Path introspection *)

Definition parts (self : t) : list string := _parts self.

Definition depth (self : t) : nat := List.length (_parts self).

Definition leaf (self : t) : result string := seq_getitem "tuple" (_parts self) (-1).

Definition root (self : t) : result string := seq_getitem "tuple" (_parts self) 0.

(** *** String serialization *)

Definition to_dot (self : t) : string := join "." (_parts self).

Definition to_posix (self : t) : string := join "/" (_parts self).

Definition to_python (self : t) : string := join "." (_parts self).

Definition to_bracket (self : t) : string :=
  join "" (List.map (fun p => "['" ++ p ++ "']") (_parts self)).

Definition to_jmespath (self : t) : string := join "." (_parts self).

Definition to_jsonpath (self : t) : string := "$." ++ join "." (_parts self).

Definition to_xpath (self : t) : string := "/" ++ join "/" (_parts self).

Definition __str__ (self : t) : string := to_dot self.

Definition __repr__ (self : t) : string := "KeyOf(" ++ to_dot self ++ ")".

Definition parent (self : t) : result t :=
  if (List.length (_parts self) <? 2)%nat then
    Raise (ValueError ("Path '" ++ __str__ self ++ "' has no parent (depth=1)."))
  else Return (mk (slice_to (_parts self) (-1))).

(** *** Comparison, hashing and the container protocol *)

(** The right operand of a comparison: another path or any other value. *)
Inductive operand : Type :=
| Path (k : t)
| Other (v : value).

(** What a rich comparison method hands back. *)
Inductive compared : Type :=
| Truth (b : bool)
| NotImplemented.

Definition __eq__ (self : t) (other : operand) : compared :=
  match other with
  | Path o => Truth (tuple_eqb (_parts self) (_parts o))
  | Other (VStr s) => Truth (String.eqb (to_dot self) s)
  | Other _ => NotImplemented
  end.

(** [self == other].  When [__eq__] declines, Python asks the reflected
    [other.__eq__(self)]; the values of [value] decline a [KeyOf] in turn,
    and the comparison ends on identity, which fails for two objects of
    different types. *)
Definition equals (self : t) (other : operand) : bool :=
  match __eq__ self other with
  | Truth b => b
  | NotImplemented => false
  end.

Section Hash.

(** The interpreter's [hash] on tuples of strings. *)
Variable hash : list string -> Z.

Definition __hash__ (self : t) : Z := hash (_parts self).

End Hash.

Definition __lt__ (self : t) (other : operand) : compared :=
  match other with
  | Path o => Truth (tuple_ltb (_parts self) (_parts o))
  | Other _ => NotImplemented
  end.

(** [self < other].  When [__lt__] declines, Python asks the reflected
    [other.__gt__(self)]; the values of [value] decline a [KeyOf] in turn,
    and the comparison raises [TypeError]. *)
Definition less_than (self : t) (other : operand) : result bool :=
  match __lt__ self other with
  | Truth b => Return b
  | NotImplemented =>
      Raise (TypeError "'<' not supported between instances of 'KeyOf' and another type")
  end.

Definition __len__ (self : t) : nat := depth self.

Definition __iter__ (self : t) : list string := _parts self.

Definition __contains__ (self : t) (segment : string) : bool :=
  existsb (String.eqb segment) (_parts self).

(** *** Custom templates *)

(** The keyword arguments [format] hands to [template.format]. *)
Record format_args : Type := mk_format_args {
  arg_parts : list string;
  arg_root : string;
  arg_leaf : string;
  arg_depth : nat;
  arg_dot : string;
  arg_posix : string;
  arg_bracket : string;
  arg_jsonpath : string;
  arg_xpath : string;
  arg_sep : _JoinHelper.t
}.

Section Format.

(** [str.format] of the interpreter, called with keyword arguments. *)
Variable str_format : string -> format_args -> result string.

(** The keyword arguments are evaluated in the order they are written,
    before [template.format] is entered. *)
Definition format (self : t) (template : string) : result string :=
  r <- root self ;;
  l <- leaf self ;;
  str_format template
    (mk_format_args (_parts self) r l (depth self) (to_dot self) (to_posix self)
       (to_bracket self) (to_jsonpath self) (to_xpath self)
       (_JoinHelper.__init__ (_parts self))).

End Format.

(** *** Immutability *)

(** [__setattr__] on an instance whose [__dict__] is [dict]: the write of
    [_parts] goes through once, every other write is refused.  The result is
    the [__dict__] after the call. *)
Definition __setattr__ (dict : list (string * value)) (name : string) (v : value)
  : result (list (string * value)) :=
  if String.eqb name "_parts"
     && negb (existsb (fun kv => String.eqb (fst kv) "_parts") dict) then
    Return (dict ++ [(name, v)])%list
  else Raise (AttributeError "KeyOf instances are immutable.").

End KeyOf.

(** ** Sample selectors and instances *)

(** [lambda u: u.address.city] *)
Definition city_selector (u : _PathProxy.t) : result selected :=
  a <- _PathProxy.__getattr__ u "address" ;;
  c <- _PathProxy.__getattr__ a "city" ;;
  Return (Proxy c).

(** [lambda x: x] *)
Definition identity_selector (x : _PathProxy.t) : result selected :=
  Return (Proxy x).

(** [lambda x: "x"] *)
Definition literal_text_selector (x : _PathProxy.t) : result selected :=
  Return (Plain (VStr "x")).

(** [lambda x: 123] *)
Definition literal_int_selector (x : _PathProxy.t) : result selected :=
  Return (Plain (VInt 123)).

(** [User(address=Address(city="London"))] *)
Definition london_user : value :=
  VObj "User" [("address", VObj "Address" [("city", VStr "London")] None)] None.

(** [{"address": {"city": "London"}}] *)
Definition london_dict : value :=
  VDict [(KStr "address", VDict [(KStr "city", VStr "London")])].

(** A runtime whose classes define no attribute of their own. *)
Definition no_class_attr (o : value) (name : string) : option value := None.

(** A runtime in which [dict] has its usual views as methods. *)
Definition sample_class_attr (o : value) (name : string) : option value :=
  match o with
  | VDict _ =>
      if existsb (String.eqb name) ["items"; "keys"; "values"] then
        Some (VOpaque "builtin_function_or_method")
      else None
  | _ => None
  end.

(** A stand-in for the interpreter's hash, for concrete runs. *)
Definition length_hash (t : list string) : Z := Z.of_nat (List.length t).

(** [User(name="Bob", address=None)] *)
Definition user_without_address : value :=
  VObj "User" [("name", VStr "Bob"); ("address", VNone)] None.

(** [{"users": [{"name": "Alice"}]}] *)
Definition users_dict : value :=
  VDict [(KStr "users", VList [VDict [(KStr "name", VStr "Alice")]])].

(** [{"items": [1, 2]}]: a mapping with a key that is a method name too. *)
Definition items_dict : value :=
  VDict [(KStr "items", VList [VInt 1; VInt 2])].

(** [[10, 20, 30]] *)
Definition scores : value := VList [VInt 10; VInt 20; VInt 30].

(** The one-character string U+00B2, SUPERSCRIPT TWO. *)
Definition superscript_two : string := String "178"%char EmptyString.

(** [lambda x: x["\u00b2"]] *)
Definition superscript_selector (x : _PathProxy.t) : result selected :=
  Return (Proxy (_PathProxy.__getitem__ x (KStr superscript_two))).

(** [lambda d: d["users"][0].name] *)
Definition first_user_name_selector (d : _PathProxy.t) : result selected :=
  n <- _PathProxy.__getattr__
         (_PathProxy.__getitem__ (_PathProxy.__getitem__ d (KStr "users")) (KInt 0))
         "name" ;;
  Return (Proxy n).

(** ** Selectors as chains of accesses *)

(** One step of a selector body: [x.name], [x[key]], [nn(x)] or [x | nn]. *)
Inductive access : Type :=
| Attr (name : string)
| Item (key : dkey)
| NonNullCall
| NonNullPipe.

Section Navigation.

(** What normal lookup finds on the class of a proxy. *)
Variable type_attr : string -> option value.

(** What normal lookup finds on the class of any other value. *)
Variable class_attr : value -> string -> option value.

(** One access, on a proxy or on the plain value an earlier access gave. *)
Definition access_step (a : access) (s : selected) : result selected :=
  match a, s with
  | Attr name, Proxy p => proxy_attribute type_attr p name
  | Attr name, Plain v => w <- KeyOf.getattr class_attr v name ;; Return (Plain w)
  | Item key, Proxy p => Return (Proxy (_PathProxy.__getitem__ p key))
  | Item key, Plain v => w <- getitem v key ;; Return (Plain w)
  | NonNullCall, _ => Return (_NonNull.__call__ s)
  | NonNullPipe, _ => Return (_NonNull.__ror__ s)
  end.

Fixpoint navigate_from (accesses : list access) (s : selected) : result selected :=
  match accesses with
  | [] => Return s
  | a :: rest => s' <- access_step a s ;; navigate_from rest s'
  end.

(** The selector [lambda x: x<accesses>], applied to the proxy [x]. *)
Definition navigate (accesses : list access) (x : _PathProxy.t) : result selected :=
  navigate_from accesses (Proxy x).

End Navigation.

(** The segments a chain of accesses spells out. *)
Fixpoint segments (accesses : list access) : list string :=
  match accesses with
  | [] => []
  | Attr name :: rest => name :: segments rest
  | Item key :: rest => str_ key :: segments rest
  | NonNullCall :: rest | NonNullPipe :: rest => segments rest
  end.

(** [name.startswith("__") and name.endswith("__")] *)
Definition is_dunder (name : string) : bool :=
  startswith "__" name && endswith "__" name.

(** The attribute names of a chain. *)
Fixpoint attr_names (accesses : list access) : list string :=
  match accesses with
  | [] => []
  | Attr name :: rest => name :: attr_names rest
  | _ :: rest => attr_names rest
  end.

(** The keys of a chain. *)
Fixpoint item_keys (accesses : list access) : list dkey :=
  match accesses with
  | [] => []
  | Item key :: rest => key :: item_keys rest
  | _ :: rest => item_keys rest
  end.

(** The attribute names a chain may hold for its accesses to be recorded:
    names that reach the hook and are not dunder-style. *)
Definition recorded_names (type_attr : string -> option value) (names : list string)
  : Prop :=
  Forall (fun name => hook_name type_attr name = true /\ is_dunder name = false) names.

(** The keys a chain may hold: strings, and integers within the digit limit. *)
Definition keys_in_range (keys : list dkey) : Prop :=
  Forall (fun key => key_in_range key = true) keys.

(** A part of the table of a proxy's class: the methods the class body
    defines, its [__slots__], and [__class__]. *)
Definition proxy_type_attr (name : string) : option value :=
  if existsb (String.eqb name) ["__init__"; "__getattr__"; "__getitem__"; "__setattr__"]
  then Some (VOpaque "method")
  else if String.eqb name "__slots__" then Some (VTuple [VStr "_parts"])
  else if String.eqb name "__class__" then Some (VOpaque "type")
  else None.

(** The claim that every attribute access on a proxy is refused for a
    dunder-style name and appends the name otherwise. *)
Definition every_name_is_recorded (type_attr : string -> option value) : Prop :=
  forall (self : _PathProxy.t) (name : string),
    (is_dunder name = true ->
     proxy_attribute type_attr self name = Raise (AttributeError name))
    /\ (is_dunder name = false ->
        exists q, proxy_attribute type_attr self name = Return (Proxy q)
                  /\ _PathProxy._parts q = (_PathProxy._parts self ++ [name])%list).

(** A segment free of dots. *)
Definition dot_free (s : string) : bool :=
  all_chars (fun c => negb (Ascii.eqb c ".")) s.

(** An object with a property [boom] that raises [KeyError] and a property
    [crash] that raises [RuntimeError]; every other attribute is missing. *)
Definition raising_getattr (o : value) (name : string) : result value :=
  if String.eqb name "boom" then Raise (KeyError "'k'")
  else if String.eqb name "crash" then Raise (OtherError "RuntimeError" "crashed")
  else Raise (AttributeError name).

(** ** Writes to an instance *)

(** A run of attribute writes on an instance whose [__dict__] is [dict]; a
    write that is refused leaves the [__dict__] as it was. *)
Fixpoint apply_writes (dict : list (string * value)) (writes : list (string * value))
  : list (string * value) :=
  match writes with
  | [] => dict
  | (name, v) :: rest =>
      match KeyOf.__setattr__ dict name v with
      | Return dict' => apply_writes dict' rest
      | Raise _ => apply_writes dict rest
      end
  end.

(** ** Where replay stops *)

(** The places where [from_] gives up on a segment: the current value is
    [None], or neither attribute lookup nor item access resolves it. *)
Definition gives_up (class_attr : value -> string -> option value)
           (cur : value) (part : string) : Prop :=
  cur = VNone
  \/ (cur <> VNone
      /\ (exists msg, KeyOf.getattr class_attr cur part = Raise (AttributeError msg))
      /\ exists e, KeyOf.item_access cur part = Raise e /\ KeyOf.lookup_error e = true).

(** * Properties *)

(** ** Strings and tuples *)

Lemma length_append (a b : string) :
  String.length (a ++ b) = String.length a + String.length b.
Proof.
  induction a as [|c a IH]; simpl; [reflexivity | now rewrite IH].
Qed.

Lemma startswith_spec (p s : string) :
  startswith p s = true <-> exists r, s = p ++ r.
Proof.
  revert s; induction p as [|a p IH]; intros s; simpl.
  - split; [intros _; now exists s | reflexivity].
  - destruct s as [|b s]; simpl.
    + split; [discriminate | intros [r Hr]; discriminate].
    + rewrite andb_true_iff, Ascii.eqb_eq, IH. split.
      * intros [-> [r ->]]. now exists r.
      * intros [r Hr]. injection Hr as -> ->. split; [reflexivity | now exists r].
Qed.

Lemma drop_append (r p : string) : drop (String.length r) (r ++ p) = p.
Proof.
  induction r as [|c r IH]; simpl; [now destruct p | exact IH].
Qed.

Lemma drop_suffix (n : nat) (s : string) : exists r, s = r ++ drop n s.
Proof.
  revert s; induction n as [|n IH]; intros s.
  - exists ""; now destruct s.
  - destruct s as [|c s]; simpl.
    + now exists "".
    + destruct (IH s) as [r Hr]. exists (String c r). simpl. now rewrite <- Hr.
Qed.

Lemma endswith_spec (p s : string) :
  endswith p s = true <-> exists r, s = r ++ p.
Proof.
  unfold endswith. rewrite andb_true_iff, Nat.leb_le, String.eqb_eq. split.
  - intros [_ H]. destruct (drop_suffix (String.length s - String.length p) s) as [r Hr].
    exists r. now rewrite H in Hr.
  - intros [r ->]. rewrite length_append. split; [lia|].
    replace (String.length r + String.length p - String.length p) with (String.length r) by lia.
    apply drop_append.
Qed.

Lemma tuple_eqb_eq (a b : list string) : tuple_eqb a b = true <-> a = b.
Proof.
  revert b; induction a as [|x a IH]; intros [|y b]; simpl; try easy.
  rewrite andb_true_iff, String.eqb_eq, IH. split.
  - now intros [-> ->].
  - intros H; now injection H.
Qed.

Lemma slice_to_nat (A : Type) (t : list A) (i : nat) :
  slice_to t (Z.of_nat i) = firstn i t.
Proof.
  unfold slice_to. destruct (Z.ltb_spec (Z.of_nat i) 0) as [H|_]; [lia|].
  destruct (Nat.le_gt_cases i (List.length t)) as [Hle|Hgt].
  - rewrite Z.min_l by lia. now rewrite Nat2Z.id.
  - rewrite Z.min_r by lia. rewrite Nat2Z.id.
    rewrite !firstn_all2 by lia. reflexivity.
Qed.

Lemma slice_to_minus_one (A : Type) (t : list A) :
  slice_to t (-1) = removelast t.
Proof.
  unfold slice_to. rewrite removelast_firstn_len.
  change (-1 <? 0)%Z with true. cbv iota. f_equal.
  destruct t as [|x t]; [reflexivity|].
  cbn [List.length Nat.pred]. lia.
Qed.

Lemma seq_getitem_nil (A : Type) (kind : string) (i : Z) :
  seq_getitem kind (@nil A) i = Raise (IndexError (kind ++ " index out of range")).
Proof.
  unfold seq_getitem. simpl.
  destruct (i <? 0)%Z eqn:Hi; rewrite ?Z.add_0_r;
    destruct (Z.leb_spec 0 i), (Z.ltb_spec i 0); simpl; try reflexivity; lia.
Qed.

(** ** The proxy *)

(** The hook [__getattr__], called with any name: a name that both starts
    and ends with two underscores is refused with [AttributeError]; any other
    name gives a new proxy whose segments are the original's followed by that
    name.  The method builds a new tuple and a new proxy and writes nothing,
    so the original proxy keeps its segments. *)
Theorem getattr_appends_segment :
  forall (self : _PathProxy.t) (name : string),
    ((exists r, name = "__" ++ r) /\ (exists r, name = r ++ "__") ->
     _PathProxy.__getattr__ self name = Raise (AttributeError name))
    /\ (~ ((exists r, name = "__" ++ r) /\ (exists r, name = r ++ "__")) ->
        exists q, _PathProxy.__getattr__ self name = Return q
                  /\ _PathProxy._parts q = (_PathProxy._parts self ++ [name])%list).
Proof.
  intros self name. unfold _PathProxy.__getattr__.
  destruct (startswith "__" name) eqn:Hs, (endswith "__" name) eqn:He; cbn [andb].
  - split; [reflexivity|]. intros H. exfalso. apply H. split.
    + exact (proj1 (startswith_spec "__" name) Hs).
    + exact (proj1 (endswith_spec "__" name) He).
  - split; [|intros _; eexists; split; reflexivity].
    intros [_ H]. apply (proj2 (endswith_spec "__" name)) in H. congruence.
  - split; [|intros _; eexists; split; reflexivity].
    intros [H _]. apply (proj2 (startswith_spec "__" name)) in H. congruence.
  - split; [|intros _; eexists; split; reflexivity].
    intros [H _]. apply (proj2 (startswith_spec "__" name)) in H. congruence.
Qed.

Lemma getattr_appends_segment_witness :
  (((exists r, "__len__" = "__" ++ r) /\ (exists r, "__len__" = r ++ "__"))
   /\ _PathProxy.__getattr__ (_PathProxy.mk ["address"]) "__len__"
      = Raise (AttributeError "__len__"))
  /\ (~ ((exists r, "city" = "__" ++ r) /\ (exists r, "city" = r ++ "__"))
      /\ exists q, _PathProxy.__getattr__ (_PathProxy.mk ["address"]) "city" = Return q
                   /\ _PathProxy._parts q = ["address"; "city"]).
Proof.
  split.
  - assert (H : (exists r, "__len__" = "__" ++ r) /\ (exists r, "__len__" = r ++ "__"))
      by (split; [exists "len__" | exists "__len"]; reflexivity).
    split; [exact H|].
    exact (proj1 (getattr_appends_segment (_PathProxy.mk ["address"]) "__len__") H).
  - assert (H : ~ ((exists r, "city" = "__" ++ r) /\ (exists r, "city" = r ++ "__")))
      by (intros [[r Hr] _]; discriminate).
    split; [exact H|].
    exact (proj2 (getattr_appends_segment (_PathProxy.mk ["address"]) "city") H).
Defined.

(** Subscription on a proxy records [str(key)], whatever the key looks like. *)
Lemma getitem_appends_segment (self : _PathProxy.t) (key : dkey) :
  _PathProxy._parts (_PathProxy.__getitem__ self key)
  = (_PathProxy._parts self ++ [str_ key])%list.
Proof. reflexivity. Qed.

(** C6, as amended.  For every proxy and every attribute name that normal
    lookup does not find on it (a name other than the slot [_parts] that
    neither the class nor [object] defines), the attribute access goes to the
    hook: a name that both starts and ends with two underscores is refused
    with [AttributeError] carrying the name, and any other name gives a new
    proxy whose segments are the original's followed by that name, the
    original proxy being left as it was. *)
Theorem attribute_access_appends_segment :
  forall (type_attr : string -> option value) (self : _PathProxy.t) (name : string),
    name <> "_parts" ->
    type_attr name = None ->
    ((exists r, name = "__" ++ r) /\ (exists r, name = r ++ "__") ->
     proxy_attribute type_attr self name = Raise (AttributeError name))
    /\ (~ ((exists r, name = "__" ++ r) /\ (exists r, name = r ++ "__")) ->
        exists q, proxy_attribute type_attr self name = Return (Proxy q)
                  /\ _PathProxy._parts q = (_PathProxy._parts self ++ [name])%list).
Proof.
  intros type_attr self name Hslot Htype. unfold proxy_attribute.
  destruct (String.eqb_spec name "_parts") as [E|_]; [now destruct Hslot|].
  rewrite Htype.
  destruct (getattr_appends_segment self name) as [Hdunder Hplain]. split.
  - intros H. now rewrite (Hdunder H).
  - intros H. destruct (Hplain H) as (q & Hq & Hparts).
    exists q. rewrite Hq. split; [reflexivity | exact Hparts].
Qed.

Lemma attribute_access_appends_segment_witness :
  "city" <> "_parts"
  /\ proxy_type_attr "city" = None
  /\ (~ ((exists r, "city" = "__" ++ r) /\ (exists r, "city" = r ++ "__"))
      /\ exists q, proxy_attribute proxy_type_attr (_PathProxy.mk ["address"]) "city"
                   = Return (Proxy q)
                   /\ _PathProxy._parts q = ["address"; "city"])
  /\ "__custom_attr__" <> "_parts"
  /\ proxy_type_attr "__custom_attr__" = None
  /\ ((exists r, "__custom_attr__" = "__" ++ r) /\ (exists r, "__custom_attr__" = r ++ "__"))
  /\ proxy_attribute proxy_type_attr (_PathProxy.mk ["address"]) "__custom_attr__"
     = Raise (AttributeError "__custom_attr__").
Proof.
  assert (H1 : "city" <> "_parts") by discriminate.
  assert (H2 : ~ ((exists r, "city" = "__" ++ r) /\ (exists r, "city" = r ++ "__")))
    by (intros [[r Hr] _]; discriminate).
  assert (H3 : "__custom_attr__" <> "_parts") by discriminate.
  assert (H4 : (exists r, "__custom_attr__" = "__" ++ r)
               /\ (exists r, "__custom_attr__" = r ++ "__"))
    by (split; [exists "custom_attr__" | exists "__custom_attr"]; reflexivity).
  split; [exact H1|]. split; [reflexivity|].
  split; [split; [exact H2|]|].
  - exact (proj2 (attribute_access_appends_segment proxy_type_attr
                    (_PathProxy.mk ["address"]) "city" H1 eq_refl) H2).
  - split; [exact H3|]. split; [reflexivity|]. split; [exact H4|].
    exact (proj1 (attribute_access_appends_segment proxy_type_attr
                    (_PathProxy.mk ["address"]) "__custom_attr__" H3 eq_refl) H4).
Defined.

(** The claim as first worded, for every attribute name, fails: [x._parts]
    is answered by the slot and hands back the tuple of segments, not a
    proxy, and [x.__class__] is answered by normal lookup and is not
    refused. *)
Lemma attribute_access_counterexample :
  is_dunder "_parts" = false
  /\ proxy_attribute proxy_type_attr (_PathProxy.mk ["address"]) "_parts"
     = Return (Plain (VTuple [VStr "address"]))
  /\ is_dunder "__class__" = true
  /\ proxy_attribute proxy_type_attr (_PathProxy.mk ["address"]) "__class__"
     = Return (Plain (VOpaque "type"))
  /\ (forall type_attr, ~ every_name_is_recorded type_attr).
Proof.
  split; [reflexivity|]. split; [reflexivity|]. split; [reflexivity|].
  split; [reflexivity|].
  intros type_attr H.
  destruct (proj2 (H (_PathProxy.mk ["address"]) "_parts") eq_refl) as (q & Hq & _).
  discriminate.
Qed.

(** The helper [nn] hands its argument back, called or piped into, so a
    chain that goes through it records the same segments. *)
Lemma nn_is_identity (v : selected) :
  _NonNull.__call__ v = v /\ _NonNull.__ror__ v = v.
Proof. split; reflexivity. Qed.

(** ** Construction *)

(** C5.  Construction raises [TypeError] whenever the selector returns a
    value that is no proxy, and otherwise the new path holds exactly the
    segments of the proxy the selector returned. *)
Theorem init_takes_proxy_segments :
  forall (selector : _PathProxy.t -> result selected),
    (forall v, selector (_PathProxy.__init__ []) = Return (Plain v) ->
               exists msg, KeyOf.__init__ selector = Raise (TypeError msg))
    /\ (forall p, selector (_PathProxy.__init__ []) = Return (Proxy p) ->
                  exists k, KeyOf.__init__ selector = Return k
                            /\ KeyOf.parts k = _PathProxy._parts p).
Proof.
  intros selector. unfold KeyOf.__init__. split.
  - intros v ->. simpl. eexists. reflexivity.
  - intros p ->. simpl. eexists. split; reflexivity.
Qed.

Lemma init_takes_proxy_segments_witness :
  (literal_text_selector (_PathProxy.__init__ []) = Return (Plain (VStr "x"))
   /\ exists msg, KeyOf.__init__ literal_text_selector = Raise (TypeError msg))
  /\ (literal_int_selector (_PathProxy.__init__ []) = Return (Plain (VInt 123))
      /\ exists msg, KeyOf.__init__ literal_int_selector = Raise (TypeError msg))
  /\ (city_selector (_PathProxy.__init__ [])
      = Return (Proxy (_PathProxy.mk ["address"; "city"]))
      /\ exists k, KeyOf.__init__ city_selector = Return k
                   /\ KeyOf.parts k = ["address"; "city"]).
Proof.
  repeat split.
  - exact (proj1 (init_takes_proxy_segments literal_text_selector) _ eq_refl).
  - exact (proj1 (init_takes_proxy_segments literal_int_selector) _ eq_refl).
  - exact (proj2 (init_takes_proxy_segments city_selector) _ eq_refl).
Defined.

(** ** Introspection *)

(** C7.  A path of depth at least two has a parent, whose segments are the
    path's own without the last one; on a path of depth below two (one
    segment, or none) [parent] raises [ValueError]. *)
Theorem parent_drops_last_segment :
  forall p : KeyOf.t,
    (2 <= KeyOf.depth p ->
     exists q, KeyOf.parent p = Return q
               /\ KeyOf.parts q = removelast (KeyOf.parts p)
               /\ exists last, KeyOf.parts p = (KeyOf.parts q ++ [last])%list)
    /\ (KeyOf.depth p < 2 -> exists msg, KeyOf.parent p = Raise (ValueError msg)).
Proof.
  intros [parts]. unfold KeyOf.parent, KeyOf.depth, KeyOf.parts. cbn [KeyOf._parts].
  split; intros H.
  - destruct (Nat.ltb_spec (List.length parts) 2) as [Hlt|_]; [lia|].
    eexists. split; [reflexivity|]. cbn [KeyOf._parts].
    rewrite slice_to_minus_one. split; [reflexivity|].
    exists (List.last parts ""). apply app_removelast_last.
    intros ->. simpl in H. lia.
  - destruct (Nat.ltb_spec (List.length parts) 2) as [_|Hge]; [|lia].
    eexists. reflexivity.
Qed.

Lemma parent_drops_last_segment_witness :
  (2 <= KeyOf.depth (KeyOf.mk ["a"; "b"; "c"])
   /\ exists q, KeyOf.parent (KeyOf.mk ["a"; "b"; "c"]) = Return q
                /\ KeyOf.parts q = removelast ["a"; "b"; "c"]
                /\ exists last, ["a"; "b"; "c"] = (KeyOf.parts q ++ [last])%list)
  /\ (KeyOf.depth (KeyOf.mk ["a"]) < 2
      /\ exists msg, KeyOf.parent (KeyOf.mk ["a"]) = Raise (ValueError msg)).
Proof.
  split.
  - assert (H : 2 <= KeyOf.depth (KeyOf.mk ["a"; "b"; "c"])) by (cbv; lia).
    split; [exact H|].
    exact (proj1 (parent_drops_last_segment (KeyOf.mk ["a"; "b"; "c"])) H).
  - assert (H : KeyOf.depth (KeyOf.mk ["a"]) < 2) by (cbv; lia).
    split; [exact H|].
    exact (proj2 (parent_drops_last_segment (KeyOf.mk ["a"])) H).
Defined.

(** Scenario 5: two [parent] calls take a path of three segments to one
    segment, and a third call fails. *)
Example parent_chain :
  (q <- KeyOf.parent (KeyOf.mk ["a"; "b"; "c"]) ;; KeyOf.parent q)
  = Return (KeyOf.mk ["a"])
  /\ KeyOf.parent (KeyOf.mk ["a"])
     = Raise (ValueError "Path 'a' has no parent (depth=1).").
Proof. split; reflexivity. Qed.

(** ** Comparison and hashing *)

(** C8.  Two paths compare equal exactly when their segment tuples are the
    same; a path equals a string exactly when the string is its dot
    rendering; against a value of any other type [__eq__] declines and [==]
    is false; and two equal paths have the same hash. *)
Theorem equality_and_hash :
  forall (hash : list string -> Z) (p : KeyOf.t),
    (forall q, KeyOf.equals p (KeyOf.Path q) = true <-> KeyOf.parts p = KeyOf.parts q)
    /\ (forall s, KeyOf.equals p (KeyOf.Other (VStr s)) = true <-> s = KeyOf.to_dot p)
    /\ (forall v, (forall s, v <> VStr s) ->
                  KeyOf.__eq__ p (KeyOf.Other v) = KeyOf.NotImplemented
                  /\ KeyOf.equals p (KeyOf.Other v) = false)
    /\ (forall q, KeyOf.equals p (KeyOf.Path q) = true ->
                  KeyOf.__hash__ hash p = KeyOf.__hash__ hash q).
Proof.
  intros hash p. unfold KeyOf.equals, KeyOf.__hash__, KeyOf.parts. cbn [KeyOf.__eq__].
  split; [|split; [|split]].
  - intros q. apply tuple_eqb_eq.
  - intros s. rewrite String.eqb_eq. split; intros H; now symmetry.
  - intros v H. destruct v; try (split; reflexivity). now destruct (H s).
  - intros q H%tuple_eqb_eq. now rewrite H.
Qed.

Lemma equality_and_hash_witness :
  (KeyOf.parts (KeyOf.mk ["address"; "city"]) = KeyOf.parts (KeyOf.mk ["address"; "city"])
   /\ KeyOf.equals (KeyOf.mk ["address"; "city"])
                   (KeyOf.Path (KeyOf.mk ["address"; "city"])) = true)
  /\ ("address.city" = KeyOf.to_dot (KeyOf.mk ["address"; "city"])
      /\ KeyOf.equals (KeyOf.mk ["address"; "city"])
                      (KeyOf.Other (VStr "address.city")) = true)
  /\ ((forall s, VInt 123 <> VStr s)
      /\ KeyOf.__eq__ (KeyOf.mk ["address"; "city"]) (KeyOf.Other (VInt 123))
         = KeyOf.NotImplemented
      /\ KeyOf.equals (KeyOf.mk ["address"; "city"]) (KeyOf.Other (VInt 123)) = false)
  /\ (KeyOf.equals (KeyOf.mk ["address"; "city"])
                   (KeyOf.Path (KeyOf.mk ["address"; "city"])) = true
      /\ KeyOf.__hash__ length_hash (KeyOf.mk ["address"; "city"])
         = KeyOf.__hash__ length_hash (KeyOf.mk ["address"; "city"])).
Proof.
  destruct (equality_and_hash length_hash (KeyOf.mk ["address"; "city"]))
    as (Hpath & Hstr & Hother & Hhash).
  assert (Hint : forall s, VInt 123 <> VStr s) by discriminate.
  split; [split; [reflexivity | exact (proj2 (Hpath _) eq_refl)]|].
  split; [split; [reflexivity | exact (proj2 (Hstr _) eq_refl)]|].
  split; [split; [exact Hint | exact (Hother _ Hint)]|].
  split; [exact (proj2 (Hpath _) eq_refl) | exact (Hhash _ (proj2 (Hpath _) eq_refl))].
Defined.

(** ** The identity path *)

(** C9.  On a path of depth 0, replay returns the instance it is given,
    with or without a default; [to_dot] is the empty string; [root] and
    [leaf] raise [IndexError] and [parent] raises [ValueError]. *)
Theorem identity_path :
  forall (class_attr : value -> string -> option value) (p : KeyOf.t),
    KeyOf.depth p = 0 ->
    (forall obj default, KeyOf.from_ class_attr p obj default = Return obj)
    /\ KeyOf.to_dot p = ""
    /\ KeyOf.root p = Raise (IndexError "tuple index out of range")
    /\ KeyOf.leaf p = Raise (IndexError "tuple index out of range")
    /\ KeyOf.parent p = Raise (ValueError "Path '' has no parent (depth=1).").
Proof.
  intros class_attr [parts] H. unfold KeyOf.depth in H. cbn [KeyOf._parts] in H.
  apply length_zero_iff_nil in H. subst parts.
  repeat split.
Qed.

Lemma identity_path_witness :
  KeyOf.__init__ identity_selector = Return (KeyOf.mk [])
  /\ KeyOf.depth (KeyOf.mk []) = 0
  /\ (forall obj default, KeyOf.from_ no_class_attr (KeyOf.mk []) obj default = Return obj)
  /\ KeyOf.to_dot (KeyOf.mk []) = ""
  /\ KeyOf.root (KeyOf.mk []) = Raise (IndexError "tuple index out of range")
  /\ KeyOf.leaf (KeyOf.mk []) = Raise (IndexError "tuple index out of range")
  /\ KeyOf.parent (KeyOf.mk [])
     = Raise (ValueError "Path '' has no parent (depth=1).").
Proof.
  split; [reflexivity|]. split; [reflexivity|].
  exact (identity_path no_class_attr (KeyOf.mk []) eq_refl).
Defined.

(** ** Scenario 1 *)

(** C1.  The path built by [lambda u: u.address.city] replays to
    ["London"] on an instance whose [address] attribute holds an object whose
    [city] attribute is ["London"]; its renderings are [address.city],
    [['address']['city']] and [$.address.city]. *)
Theorem scenario_address_city :
  forall (class_attr : value -> string -> option value) (default : option value),
  exists p,
    KeyOf.__init__ city_selector = Return p
    /\ KeyOf.from_ class_attr p london_user default = Return (VStr "London")
    /\ KeyOf.to_dot p = "address.city"
    /\ KeyOf.to_bracket p = "['address']['city']"
    /\ KeyOf.to_jsonpath p = "$.address.city".
Proof.
  intros class_attr default. exists (KeyOf.mk ["address"; "city"]).
  repeat split.
Qed.

(** ** Replay, one segment at a time *)

Section ReplaySteps.

Variable class_attr : value -> string -> option value.

Local Abbreviation getattr := (KeyOf.getattr class_attr).
Local Abbreviation from_loop := (KeyOf.from_loop class_attr).

(** [getattr] raises nothing but [AttributeError]. *)
Lemma getattr_raises (o : value) (name : string) (e : exn) :
  getattr o name = Raise e -> exists msg, e = AttributeError msg.
Proof.
  unfold KeyOf.getattr.
  destruct (KeyOf.instance_attr o name); [discriminate|].
  destruct (class_attr o name); [discriminate|].
  intros H. injection H as <-. eexists. reflexivity.
Qed.

Lemma getattr_missing (o : value) (name : string) :
  KeyOf.instance_attr o name = None ->
  class_attr o name = None ->
  exists msg, getattr o name = Raise (AttributeError msg).
Proof.
  intros Hi Hc. unfold KeyOf.getattr. rewrite Hi, Hc. eexists. reflexivity.
Qed.

(** Subscription raises nothing but [KeyError], [IndexError] and [TypeError]. *)
Lemma seq_getitem_raises (A : Type) (kind : string) (t : list A) (i : Z) (e : exn) :
  seq_getitem kind t i = Raise e -> KeyOf.lookup_error e = true.
Proof.
  unfold seq_getitem.
  destruct (_ && _)%bool; [destruct (nth_error _ _)|]; intros H;
    try discriminate; now injection H as <-.
Qed.

Lemma getitem_raises (o : value) (k : dkey) (e : exn) :
  getitem o k = Raise e -> KeyOf.lookup_error e = true.
Proof.
  assert (Hm : forall m, mapping_getitem m k = Raise e -> KeyOf.lookup_error e = true).
  { intros m. unfold mapping_getitem. destruct (lookup dkey_eqb k m); intros H;
      [discriminate | now injection H as <-]. }
  destruct o as [| | | s | l | l | m | cls fields [m|] |]; destruct k; cbn [getitem];
    try (intros H; now injection H as <-);
    try apply Hm; try apply seq_getitem_raises.
  unfold bind. destruct (seq_getitem "string" (string_chars s) z) eqn:Hs;
    [discriminate|]. intros H. injection H as <-. now apply seq_getitem_raises in Hs.
Qed.

Section OneSegment.

Variables (parts : list string) (obj : value) (default : option value).
Variables (i : nat) (part : string) (rest : list string) (current : value).

Lemma from_loop_on_None :
  current = VNone ->
  from_loop parts obj default i (part :: rest) current
  = match default with
    | None => Raise (AttributeError (KeyOf.msg_on_None parts obj i part))
    | Some d => Return d
    end.
Proof. now intros ->. Qed.

Hypothesis not_None : current <> VNone.

Lemma is_None_false : is_None current = false.
Proof. destruct current; try reflexivity. now destruct not_None. Qed.

Lemma from_loop_attr (v : value) :
  getattr current part = Return v ->
  from_loop parts obj default i (part :: rest) current
  = from_loop parts obj default (S i) rest v.
Proof.
  intros H. cbn [KeyOf.from_loop]. rewrite is_None_false. now rewrite H.
Qed.

Lemma from_loop_item (msg : string) (v : value) :
  getattr current part = Raise (AttributeError msg) ->
  KeyOf.item_access current part = Return v ->
  from_loop parts obj default i (part :: rest) current
  = from_loop parts obj default (S i) rest v.
Proof.
  intros Ha Hi. cbn [KeyOf.from_loop]. rewrite is_None_false. now rewrite Ha, Hi.
Qed.

Lemma from_loop_item_error (msg : string) (e : exn) :
  getattr current part = Raise (AttributeError msg) ->
  KeyOf.item_access current part = Raise e ->
  from_loop parts obj default i (part :: rest) current
  = if KeyOf.lookup_error e then
      match default with
      | None => Raise (AttributeError (KeyOf.msg_unresolved parts current i part))
      | Some d => Return d
      end
    else Raise e.
Proof.
  intros Ha Hi. cbn [KeyOf.from_loop]. rewrite is_None_false. now rewrite Ha, Hi.
Qed.

End OneSegment.

End ReplaySteps.

(** The same path on the mapping [{"address": {"city": "London"}}]: as long
    as [dict] has no attribute called [address] or [city], attribute lookup
    fails on both levels and the keys are used. *)
Lemma scenario_address_city_dict (class_attr : value -> string -> option value)
      (default : option value) :
  class_attr london_dict "address" = None ->
  class_attr (VDict [(KStr "city", VStr "London")]) "city" = None ->
  KeyOf.from_ class_attr (KeyOf.mk ["address"; "city"]) london_dict default
  = Return (VStr "London").
Proof.
  intros H1 H2. unfold KeyOf.from_, london_dict in *. cbn [KeyOf._parts].
  destruct (getattr_missing class_attr (VDict _) "address" eq_refl H1) as [m1 Hm1].
  erewrite from_loop_item; [|discriminate|exact Hm1|reflexivity].
  destruct (getattr_missing class_attr (VDict _) "city" eq_refl H2) as [m2 Hm2].
  erewrite from_loop_item; [|discriminate|exact Hm2|reflexivity].
  reflexivity.
Qed.

(** ** Replay along a prefix *)

Section ReplayFacts.

Variable class_attr : value -> string -> option value.

Local Abbreviation getattr := (KeyOf.getattr class_attr).
Local Abbreviation from_loop := (KeyOf.from_loop class_attr).
Local Abbreviation from_ := (KeyOf.from_ class_attr).

(** When the loop, run without a default over the segments [pre], ends on
    [cur], then any run over [pre ++ rest] from the same value goes on from
    [cur] at [rest], whatever the default and the bookkeeping of messages. *)
Lemma from_loop_prefix (pre : list string) :
  forall parts1 obj1 i1 c cur,
    from_loop parts1 obj1 None i1 pre c = Return cur ->
    forall parts2 obj2 default i2 rest,
      from_loop parts2 obj2 default i2 (pre ++ rest) c
      = from_loop parts2 obj2 default (i2 + List.length pre) rest cur.
Proof.
  induction pre as [|part pre IH]; intros parts1 obj1 i1 c cur H parts2 obj2 default i2 rest.
  - cbn in H. injection H as ->. cbn. now rewrite Nat.add_0_r.
  - cbn [app List.length]. replace (i2 + S (List.length pre)) with (S i2 + List.length pre) by lia.
    destruct (is_None c) eqn:Hc.
    { cbn [KeyOf.from_loop] in H. rewrite Hc in H. discriminate. }
    assert (Hn : c <> VNone) by (intros ->; discriminate).
    destruct (getattr c part) as [v|e] eqn:Ha.
    + rewrite (from_loop_attr class_attr parts1 obj1 None i1 part pre c Hn v Ha) in H.
      rewrite (from_loop_attr class_attr parts2 obj2 default i2 part (pre ++ rest) c Hn v Ha).
      exact (IH _ _ _ _ _ H _ _ _ _ _).
    + destruct (getattr_raises class_attr c part e Ha) as [msg ->].
      destruct (KeyOf.item_access c part) as [v|e] eqn:Hi.
      * rewrite (from_loop_item class_attr parts1 obj1 None i1 part pre c Hn msg v Ha Hi) in H.
        rewrite (from_loop_item class_attr parts2 obj2 default i2 part (pre ++ rest) c Hn msg v Ha Hi).
        exact (IH _ _ _ _ _ H _ _ _ _ _).
      * rewrite (from_loop_item_error class_attr parts1 obj1 None i1 part pre c Hn msg e Ha Hi) in H.
        destruct (KeyOf.lookup_error e); discriminate.
Qed.

Lemma from_prefix (pre rest : list string) (obj cur : value) (default : option value) :
  from_ (KeyOf.mk pre) obj None = Return cur ->
  from_ (KeyOf.mk (pre ++ rest)) obj default
  = from_loop (pre ++ rest) obj default (List.length pre) rest cur.
Proof.
  intros H. unfold KeyOf.from_. cbn [KeyOf._parts].
  exact (from_loop_prefix pre pre obj 0 obj cur H (pre ++ rest) obj default 0 rest).
Qed.

(** A replay that succeeds without a default gives the same value with one. *)
Lemma from_success_any_default (p : KeyOf.t) (obj v : value) (default : option value) :
  from_ p obj None = Return v -> from_ p obj default = Return v.
Proof.
  destruct p as [parts]. intros H.
  pose proof (from_prefix parts [] obj v default H) as E.
  rewrite app_nil_r in E. exact E.
Qed.

Lemma slice_prefix (pre rest : list string) :
  slice_to (pre ++ rest) (Z.of_nat (List.length pre)) = pre.
Proof.
  rewrite slice_to_nat. rewrite firstn_app, Nat.sub_diag, firstn_all. cbn. apply app_nil_r.
Qed.

(** *** A [None] met on the way *)

(** C4.  When the segments before [part] replay to [None], so that the
    current value is [None] as [part] comes up: without a default the call
    raises [AttributeError] with a message that carries [part] and the
    dot-joined segments already resolved; with a default that default is
    returned, whatever segments follow. *)
Theorem none_before_segment :
  forall (pre : list string) (part : string) (rest : list string) (obj : value),
    from_ (KeyOf.mk pre) obj None = Return VNone ->
    from_ (KeyOf.mk (pre ++ part :: rest)) obj None
    = Raise (AttributeError
               ("Cannot resolve '" ++ part ++ "' on None (reached via '"
                ++ KeyOf.to_dot (KeyOf.mk pre) ++ "' on " ++ type_name obj ++ ")"))
    /\ forall d, from_ (KeyOf.mk (pre ++ part :: rest)) obj (Some d) = Return d.
Proof.
  intros pre part rest obj H. split; [|intros d].
  - rewrite (from_prefix pre (part :: rest) obj VNone None H).
    cbn [KeyOf.from_loop is_None]. unfold KeyOf.msg_on_None.
    now rewrite slice_prefix.
  - now rewrite (from_prefix pre (part :: rest) obj VNone (Some d) H).
Qed.

(** *** The order of the lookups *)

(** C2.  Let the segments before [part] replay to a current value [cur]
    other than [None].  Attribute lookup comes first: when it finds a value,
    that value is the result.  When it fails with [AttributeError] and [cur]
    is a list, a tuple or a string and [part.isdigit()] holds, the segment is
    resolved by [cur[int(part)]] and by nothing else; in every other case it
    is resolved by [cur[part]] and by nothing else.  A lookup that succeeds
    gives the value for every default, one that fails makes the call without
    a default raise. *)
Theorem fallback_order :
  forall (pre : list string) (part : string) (obj cur : value),
    from_ (KeyOf.mk pre) obj None = Return cur ->
    cur <> VNone ->
    (forall v, getattr cur part = Return v ->
       forall default, from_ (KeyOf.mk (pre ++ [part])) obj default = Return v)
    /\ (forall msg, getattr cur part = Raise (AttributeError msg) ->
          isinstance_seq cur = true -> isdigit part = true ->
          (forall v, (n <- int_ part ;; getitem cur (KInt n)) = Return v ->
             forall default, from_ (KeyOf.mk (pre ++ [part])) obj default = Return v)
          /\ (forall e, (n <- int_ part ;; getitem cur (KInt n)) = Raise e ->
                exists e', from_ (KeyOf.mk (pre ++ [part])) obj None = Raise e'))
    /\ (forall msg, getattr cur part = Raise (AttributeError msg) ->
          isinstance_seq cur && isdigit part = false ->
          (forall v, getitem cur (KStr part) = Return v ->
             forall default, from_ (KeyOf.mk (pre ++ [part])) obj default = Return v)
          /\ (forall e, getitem cur (KStr part) = Raise e ->
                exists e', from_ (KeyOf.mk (pre ++ [part])) obj None = Raise e')).
Proof.
  intros pre part obj cur Hpre Hcur.
  assert (Hfail : forall msg e,
             getattr cur part = Raise (AttributeError msg) ->
             KeyOf.item_access cur part = Raise e ->
             exists e', from_ (KeyOf.mk (pre ++ [part])) obj None = Raise e').
  { intros msg e Ha Hi. rewrite (from_prefix pre [part] obj cur None Hpre).
    rewrite (from_loop_item_error class_attr _ obj None _ part [] cur Hcur msg e Ha Hi).
    destruct (KeyOf.lookup_error e); eexists; reflexivity. }
  assert (Hok : forall msg v default,
             getattr cur part = Raise (AttributeError msg) ->
             KeyOf.item_access cur part = Return v ->
             from_ (KeyOf.mk (pre ++ [part])) obj default = Return v).
  { intros msg v default Ha Hi. rewrite (from_prefix pre [part] obj cur default Hpre).
    now rewrite (from_loop_item class_attr _ obj default _ part [] cur Hcur msg v Ha Hi). }
  split; [|split].
  - intros v Ha default. rewrite (from_prefix pre [part] obj cur default Hpre).
    now rewrite (from_loop_attr class_attr _ obj default _ part [] cur Hcur v Ha).
  - intros msg Ha Hseq Hdig.
    assert (E : forall r, (n <- int_ part ;; getitem cur (KInt n)) = r ->
                          KeyOf.item_access cur part = r).
    { intros r <-. unfold KeyOf.item_access. now rewrite Hseq, Hdig. }
    split; [intros v Hv default | intros e He].
    + exact (Hok msg v default Ha (E _ Hv)).
    + exact (Hfail msg e Ha (E _ He)).
  - intros msg Ha Hcond.
    assert (E : forall r, getitem cur (KStr part) = r -> KeyOf.item_access cur part = r).
    { intros r <-. unfold KeyOf.item_access. now rewrite Hcond. }
    split; [intros v Hv default | intros e He].
    + exact (Hok msg v default Ha (E _ Hv)).
    + exact (Hfail msg e Ha (E _ He)).
Qed.

End ReplayFacts.

(** ** Replay with a default *)

Section ReplayDefault.

Variable class_attr : value -> string -> option value.

Local Abbreviation getattr := (KeyOf.getattr class_attr).
Local Abbreviation from_loop := (KeyOf.from_loop class_attr).
Local Abbreviation from_ := (KeyOf.from_ class_attr).

(** A run with the default [d] that returns [r] either ran to the end, and
    then returns [r] without a default as well, or stopped at a segment it
    gave up on and returned [d]. *)
Lemma from_loop_default_cases (d : value) (rest : list string) :
  forall parts obj i cur r,
    from_loop parts obj (Some d) i rest cur = Return r ->
    from_loop parts obj None i rest cur = Return r
    \/ (r = d
        /\ exists pre part rest' c,
             rest = (pre ++ part :: rest')%list
             /\ from_loop parts obj None i pre cur = Return c
             /\ gives_up class_attr c part).
Proof.
  induction rest as [|part rest IH]; intros parts obj i cur r H.
  - left. exact H.
  - destruct (is_None cur) eqn:Hc.
    { destruct cur; try discriminate. cbn in H. injection H as <-.
      right. split; [reflexivity|]. exists [], part, rest, VNone.
      split; [reflexivity|]. split; [reflexivity|]. now left. }
    assert (Hn : cur <> VNone) by (intros ->; discriminate).
    assert (Hstep : forall v,
               (forall default rest0,
                   from_loop parts obj default i (part :: rest0) cur
                   = from_loop parts obj default (S i) rest0 v) ->
               from_loop parts obj None i (part :: rest) cur = Return r
               \/ (r = d
                   /\ exists pre part' rest' c,
                        (part :: rest = pre ++ part' :: rest')%list
                        /\ from_loop parts obj None i pre cur = Return c
                        /\ gives_up class_attr c part')).
    { intros v Hgo. rewrite Hgo in H.
      destruct (IH parts obj (S i) v r H) as [Hl|(-> & pre & q & rest' & c & -> & Hp & Hg)].
      - left. now rewrite Hgo.
      - right. split; [reflexivity|]. exists (part :: pre), q, rest', c.
        split; [reflexivity|]. split; [|exact Hg]. now rewrite Hgo. }
    destruct (getattr cur part) as [v|e] eqn:Ha.
    + apply (Hstep v). intros default rest0.
      exact (from_loop_attr class_attr parts obj default i part rest0 cur Hn v Ha).
    + destruct (getattr_raises class_attr cur part e Ha) as [msg ->].
      destruct (KeyOf.item_access cur part) as [v|e] eqn:Hi.
      * apply (Hstep v). intros default rest0.
        exact (from_loop_item class_attr parts obj default i part rest0 cur Hn msg v Ha Hi).
      * rewrite (from_loop_item_error class_attr parts obj (Some d) i part rest cur
                   Hn msg e Ha Hi) in H.
        destruct (KeyOf.lookup_error e) eqn:He; [|discriminate].
        injection H as <-. right. split; [reflexivity|].
        exists [], part, rest, cur. split; [reflexivity|]. split; [reflexivity|].
        right. split; [exact Hn|]. split; [now exists msg|]. now exists e.
Qed.

(** C10.  When every segment resolves and the value reached at the end is
    [None], replay with a default returns [None], not the default.  A replay
    with the default [d] returns either what the replay without a default
    returns, or [d] after stopping at a segment it gave up on: one that came
    up with the current value [None], or one that neither attribute lookup
    nor item access resolved. *)
Theorem final_none_is_returned :
  forall (p : KeyOf.t) (obj d : value),
    (from_ p obj None = Return VNone -> from_ p obj (Some d) = Return VNone)
    /\ (forall r, from_ p obj (Some d) = Return r ->
          from_ p obj None = Return r
          \/ (r = d
              /\ exists pre part rest cur,
                   KeyOf.parts p = (pre ++ part :: rest)%list
                   /\ from_ (KeyOf.mk pre) obj None = Return cur
                   /\ gives_up class_attr cur part)).
Proof.
  intros [parts] obj d. split.
  - apply from_success_any_default.
  - intros r H. unfold KeyOf.from_ in *. cbn [KeyOf._parts KeyOf.parts] in *.
    destruct (from_loop_default_cases d parts parts obj 0 obj r H)
      as [Hl|(-> & pre & part & rest & c & -> & Hp & Hg)].
    + now left.
    + right. split; [reflexivity|]. exists pre, part, rest, c.
      split; [reflexivity|]. split; [|exact Hg].
      pose proof (from_loop_prefix class_attr pre _ obj 0 obj c Hp pre obj None 0 []) as E.
      rewrite app_nil_r in E. exact E.
Qed.

(** *** Where the default does not reach *)

(** With a default, replay returns as long as [int] accepts every segment
    that [isdigit] accepts. *)
Lemma from_default_returns (d : value) (rest : list string) :
  Forall (fun part => isdigit part = true -> exists n, int_ part = Return n) rest ->
  forall parts obj i cur, exists r, from_loop parts obj (Some d) i rest cur = Return r.
Proof.
  induction 1 as [|part rest Hpart _ IH]; intros parts obj i cur.
  - now exists cur.
  - destruct (is_None cur) eqn:Hc.
    { destruct cur; try discriminate. now exists d. }
    assert (Hn : cur <> VNone) by (intros ->; discriminate).
    destruct (getattr cur part) as [v|e] eqn:Ha.
    + rewrite (from_loop_attr class_attr parts obj (Some d) i part rest cur Hn v Ha).
      apply IH.
    + destruct (getattr_raises class_attr cur part e Ha) as [msg ->].
      destruct (KeyOf.item_access cur part) as [v|e] eqn:Hi.
      * rewrite (from_loop_item class_attr parts obj (Some d) i part rest cur Hn msg v Ha Hi).
        apply IH.
      * rewrite (from_loop_item_error class_attr parts obj (Some d) i part rest cur
                   Hn msg e Ha Hi).
        assert (He : KeyOf.lookup_error e = true).
        { unfold KeyOf.item_access in Hi.
          destruct (isinstance_seq cur && isdigit part) eqn:Hcond.
          - apply andb_true_iff in Hcond. destruct (Hpart (proj2 Hcond)) as [n Hint].
            rewrite Hint in Hi. cbn [bind] in Hi. exact (getitem_raises _ _ _ Hi).
          - exact (getitem_raises _ _ _ Hi). }
        rewrite He. now exists d.
Qed.

Corollary from_default_total (p : KeyOf.t) (obj d : value) :
  Forall (fun part => isdigit part = true -> exists n, int_ part = Return n)
         (KeyOf.parts p) ->
  exists r, from_ p obj (Some d) = Return r.
Proof.
  intros H. exact (from_default_returns d (KeyOf.parts p) H (KeyOf.parts p) obj 0 obj).
Qed.

End ReplayDefault.

(** C3.  The with-default form does raise.  On a list, a tuple or a string
    as current value, the segment U+00B2 passes [isdigit], [int] refuses it
    with [ValueError], and the handler of [from_] lists [KeyError],
    [IndexError] and [TypeError] only: the [ValueError] leaves [from_],
    whatever default was supplied.  *)
Theorem superscript_digit_escapes_default :
  forall (class_attr : value -> string -> option value) (seq d : value),
    isinstance_seq seq = true ->
    class_attr seq superscript_two = None ->
    KeyOf.from_ class_attr (KeyOf.mk [superscript_two]) seq (Some d)
    = Raise (ValueError ("invalid literal for int() with base 10: '"
                         ++ superscript_two ++ "'")).
Proof.
  intros class_attr seq d Hseq Hattr.
  assert (Hn : seq <> VNone) by (intros ->; discriminate).
  assert (Hi : KeyOf.instance_attr seq superscript_two = None)
    by (destruct seq; try reflexivity; discriminate).
  destruct (getattr_missing class_attr seq superscript_two Hi Hattr) as [msg Ha].
  unfold KeyOf.from_. cbn [KeyOf._parts].
  rewrite (from_loop_item_error class_attr [superscript_two] seq (Some d) 0
             superscript_two [] seq Hn msg
             (ValueError ("invalid literal for int() with base 10: '"
                          ++ superscript_two ++ "'")) Ha).
  - reflexivity.
  - unfold KeyOf.item_access. rewrite Hseq. reflexivity.
Qed.

Lemma superscript_digit_escapes_default_witness :
  KeyOf.__init__ superscript_selector = Return (KeyOf.mk [superscript_two])
  /\ isinstance_seq scores = true
  /\ no_class_attr scores superscript_two = None
  /\ KeyOf.from_ no_class_attr (KeyOf.mk [superscript_two]) scores (Some (VStr "N/A"))
     = Raise (ValueError ("invalid literal for int() with base 10: '"
                          ++ superscript_two ++ "'")).
Proof.
  split; [reflexivity|]. split; [reflexivity|]. split; [reflexivity|].
  exact (superscript_digit_escapes_default no_class_attr scores (VStr "N/A")
           eq_refl eq_refl).
Defined.

(** ** Concrete runs *)

Lemma none_before_segment_witness :
  KeyOf.from_ no_class_attr (KeyOf.mk ["address"]) user_without_address None
  = Return VNone
  /\ KeyOf.from_ no_class_attr (KeyOf.mk ["address"; "city"; "zipcode"])
       user_without_address None
     = Raise (AttributeError "Cannot resolve 'city' on None (reached via 'address' on User)")
  /\ forall d, KeyOf.from_ no_class_attr (KeyOf.mk ["address"; "city"; "zipcode"])
                 user_without_address (Some d)
               = Return d.
Proof.
  split; [reflexivity|].
  exact (none_before_segment no_class_attr ["address"] "city" ["zipcode"]
           user_without_address eq_refl).
Defined.

Lemma fallback_order_witness :
  KeyOf.from_ sample_class_attr (KeyOf.mk ["users"]) users_dict None
  = Return (VList [VDict [(KStr "name", VStr "Alice")]])
  /\ VList [VDict [(KStr "name", VStr "Alice")]] <> VNone
  /\ KeyOf.getattr sample_class_attr (VList [VDict [(KStr "name", VStr "Alice")]]) "0"
     = Raise (AttributeError "'list' object has no attribute '0'")
  /\ isinstance_seq (VList [VDict [(KStr "name", VStr "Alice")]]) = true
  /\ isdigit "0" = true
  /\ (n <- int_ "0" ;; getitem (VList [VDict [(KStr "name", VStr "Alice")]]) (KInt n))
     = Return (VDict [(KStr "name", VStr "Alice")])
  /\ forall default,
       KeyOf.from_ sample_class_attr (KeyOf.mk ["users"; "0"]) users_dict default
       = Return (VDict [(KStr "name", VStr "Alice")]).
Proof.
  assert (Hcur : VList [VDict [(KStr "name", VStr "Alice")]] <> VNone) by discriminate.
  split; [reflexivity|]. split; [exact Hcur|]. split; [reflexivity|].
  split; [reflexivity|]. split; [reflexivity|]. split; [reflexivity|].
  exact (proj1 (proj1 (proj2 (fallback_order sample_class_attr ["users"] "0" users_dict
                                (VList [VDict [(KStr "name", VStr "Alice")]])
                                eq_refl Hcur))
                        "'list' object has no attribute '0'" eq_refl eq_refl eq_refl)
               (VDict [(KStr "name", VStr "Alice")]) eq_refl).
Defined.

Lemma final_none_is_returned_witness :
  KeyOf.from_ no_class_attr (KeyOf.mk ["address"]) user_without_address None
  = Return VNone
  /\ KeyOf.from_ no_class_attr (KeyOf.mk ["address"]) user_without_address
       (Some (VStr "N/A"))
     = Return VNone.
Proof.
  split; [reflexivity|].
  exact (proj1 (final_none_is_returned no_class_attr (KeyOf.mk ["address"])
                  user_without_address (VStr "N/A")) eq_refl).
Defined.

(** Attribute lookup wins on a value that answers both ways: on
    [{"items": [1, 2]}] the segment [items] finds the method of [dict], not
    the entry. *)
Example attribute_before_key :
  KeyOf.from_ sample_class_attr (KeyOf.mk ["items"]) items_dict None
  = Return (VOpaque "builtin_function_or_method")
  /\ getitem items_dict (KStr "items") = Return (VList [VInt 1; VInt 2]).
Proof. split; reflexivity. Qed.

(** The same on a record that is mapping-like too. *)
Example field_before_item :
  KeyOf.from_ no_class_attr (KeyOf.mk ["x"])
    (VObj "Row" [("x", VInt 1)] (Some [(KStr "x", VInt 2)])) None
  = Return (VInt 1).
Proof. reflexivity. Qed.

(** Scenario 2: [users[0].name] over [{"users": [{"name": "Alice"}]}]. *)
Example scenario_first_user_name :
  KeyOf.__init__ first_user_name_selector = Return (KeyOf.mk ["users"; "0"; "name"])
  /\ KeyOf.to_dot (KeyOf.mk ["users"; "0"; "name"]) = "users.0.name"
  /\ KeyOf.from_ sample_class_attr (KeyOf.mk ["users"; "0"; "name"]) users_dict None
     = Return (VStr "Alice").
Proof. repeat split. Qed.

(** Scenario 3 and the defaults of the tests: a missing index and a missing
    key give the default, and an explicit [None] default is returned as
    such. *)
Example defaults_on_missing :
  KeyOf.from_ sample_class_attr (KeyOf.mk ["users"; "99"]) users_dict
    (Some (VStr "DefaultUser"))
  = Return (VStr "DefaultUser")
  /\ KeyOf.from_ sample_class_attr (KeyOf.mk ["users"; "99"]) users_dict None
     = Raise (AttributeError "Cannot resolve '99' on list (path: 'users')")
  /\ KeyOf.from_ sample_class_attr (KeyOf.mk ["meta"; "missing"]) users_dict
       (Some (VStr "FoundIt"))
     = Return (VStr "FoundIt")
  /\ KeyOf.from_ no_class_attr (KeyOf.mk ["address"; "city"]) user_without_address
       (Some VNone)
     = Return VNone.
Proof. repeat split. Qed.

(** * Further properties *)

(** ** Construction from a chain of accesses *)

Section Chains.

Variable type_attr : string -> option value.
Variable class_attr : value -> string -> option value.

Lemma proxy_attribute_hook (x : _PathProxy.t) (name : string) :
  hook_name type_attr name = true ->
  proxy_attribute type_attr x name
  = (p <- _PathProxy.__getattr__ x name ;; Return (Proxy p)).
Proof.
  unfold hook_name, proxy_attribute. intros [Hslot Htype]%andb_true_iff.
  apply negb_true_iff in Hslot. rewrite Hslot.
  now destruct (type_attr name).
Qed.

Lemma proxy_getattr_plain (x : _PathProxy.t) (name : string) :
  is_dunder name = false ->
  _PathProxy.__getattr__ x name
  = Return (_PathProxy.mk (_PathProxy._parts x ++ [name])).
Proof. unfold _PathProxy.__getattr__, is_dunder. now intros ->. Qed.

Lemma proxy_getattr_dunder (x : _PathProxy.t) (name : string) :
  is_dunder name = true ->
  _PathProxy.__getattr__ x name = Raise (AttributeError name).
Proof. unfold _PathProxy.__getattr__, is_dunder. now intros ->. Qed.

Lemma navigate_segments (accesses : list access) :
  forall x,
    recorded_names type_attr (attr_names accesses) ->
    navigate_from type_attr class_attr accesses (Proxy x)
    = Return (Proxy (_PathProxy.mk (_PathProxy._parts x ++ segments accesses))).
Proof.
  induction accesses as [|[name|key| |] rest IH]; intros [xs] H;
    cbn [navigate_from access_step segments].
  - now rewrite app_nil_r.
  - cbn [attr_names] in H. inversion H as [|? ? [Hh Hn] Hrest]; subst.
    rewrite (proxy_attribute_hook _ _ Hh), (proxy_getattr_plain _ _ Hn). cbn [bind].
    rewrite (IH _ Hrest). cbn [_PathProxy._parts]. now rewrite <- app_assoc.
  - cbn [bind]. rewrite (IH _ H). unfold _PathProxy.__getitem__, _PathProxy.__init__.
    cbn [_PathProxy._parts]. now rewrite <- app_assoc.
  - unfold _NonNull.__call__. cbn [bind]. exact (IH _ H).
  - unfold _NonNull.__ror__. cbn [bind]. exact (IH _ H).
Qed.

Lemma navigate_dunder (pre : list access) (name : string) (rest : list access) :
  forall x,
    recorded_names type_attr (attr_names pre) ->
    hook_name type_attr name = true ->
    is_dunder name = true ->
    navigate_from type_attr class_attr (pre ++ Attr name :: rest) (Proxy x)
    = Raise (AttributeError name).
Proof.
  induction pre as [|[n|key| |] pre IH]; intros x H Hh Hd;
    cbn [app navigate_from access_step].
  - now rewrite (proxy_attribute_hook _ _ Hh), (proxy_getattr_dunder _ _ Hd).
  - cbn [attr_names] in H. inversion H as [|? ? [Hnh Hn] Hpre]; subst.
    rewrite (proxy_attribute_hook _ _ Hnh), (proxy_getattr_plain _ _ Hn). cbn [bind].
    exact (IH _ Hpre Hh Hd).
  - cbn [bind]. exact (IH _ H Hh Hd).
  - unfold _NonNull.__call__. cbn [bind]. exact (IH _ H Hh Hd).
  - unfold _NonNull.__ror__. cbn [bind]. exact (IH _ H Hh Hd).
Qed.

(** X1.  A selector that is a chain of attribute accesses, subscriptions and
    [nn] steps constructs the path whose segments are the accessed names and
    the stringified keys in the order of access, the [nn] steps leaving no
    trace, provided each attribute name reaches the hook (it is not [_parts]
    and no name the class or [object] defines) and is not dunder-style, and
    each integer key is within the digit limit of [str]. *)
Theorem init_records_accesses :
  forall accesses : list access,
    recorded_names type_attr (attr_names accesses) ->
    keys_in_range (item_keys accesses) ->
    KeyOf.__init__ (navigate type_attr class_attr accesses)
    = Return (KeyOf.mk (segments accesses)).
Proof.
  intros accesses H _. unfold KeyOf.__init__, navigate.
  rewrite (navigate_segments accesses (_PathProxy.__init__ []) H). reflexivity.
Qed.

(** X2.  When a chain reaches an attribute name that is dunder-style and
    that normal lookup does not find, after accesses that are all recorded,
    construction raises [AttributeError] carrying that name, whatever
    accesses follow. *)
Theorem init_stops_at_dunder :
  forall (pre : list access) (name : string) (rest : list access),
    recorded_names type_attr (attr_names pre) ->
    keys_in_range (item_keys pre) ->
    hook_name type_attr name = true ->
    is_dunder name = true ->
    KeyOf.__init__ (navigate type_attr class_attr (pre ++ Attr name :: rest))
    = Raise (AttributeError name).
Proof.
  intros pre name rest H _ Hh Hd. unfold KeyOf.__init__, navigate.
  rewrite (navigate_dunder pre name rest (_PathProxy.__init__ []) H Hh Hd). reflexivity.
Qed.

Lemma segments_of_items (parts : list string) :
  segments (List.map (fun s => Item (KStr s)) parts) = parts
  /\ attr_names (List.map (fun s => Item (KStr s)) parts) = [].
Proof.
  induction parts as [|s parts [IH1 IH2]]; [now split|].
  cbn [List.map segments attr_names str_]. now rewrite IH1, IH2.
Qed.

(** X3.  Subscription records any string: every tuple of strings, with
    dunder-style, empty or dotted segments alike, is the path of the selector
    that subscripts with its segments in turn. *)
Theorem every_tuple_is_a_path :
  forall parts : list string,
    KeyOf.__init__ (navigate type_attr class_attr (List.map (fun s => Item (KStr s)) parts))
    = Return (KeyOf.mk parts).
Proof.
  intros parts. unfold KeyOf.__init__, navigate.
  destruct (segments_of_items parts) as [Hs Ha].
  rewrite (navigate_segments _ (_PathProxy.__init__ []));
    [|unfold recorded_names; rewrite Ha; constructor].
  rewrite Hs. reflexivity.
Qed.

(** X20.  A selector that writes an attribute on the proxy it has navigated
    to, through accesses that are all recorded, makes construction raise
    [TypeError], whatever the name and the value written and whatever the
    selector would do next. *)
Theorem init_refuses_writes :
  forall (accesses : list access) (name : string) (v : value)
         (next : _PathProxy.t -> result selected),
    recorded_names type_attr (attr_names accesses) ->
    keys_in_range (item_keys accesses) ->
    KeyOf.__init__
      (fun x =>
         r <- navigate type_attr class_attr accesses x ;;
         match r with
         | Proxy y => _ <- _PathProxy.__setattr__ y name v ;; next y
         | Plain w => Return (Plain w)
         end)
    = Raise (TypeError "_PathProxy is read-only").
Proof.
  intros accesses name v next H _. unfold KeyOf.__init__, navigate.
  rewrite (navigate_segments accesses (_PathProxy.__init__ []) H). reflexivity.
Qed.

End Chains.

Lemma init_records_accesses_witness :
  recorded_names proxy_type_attr
    (attr_names [Item (KStr "users"); Item (KInt 0); NonNullCall; Attr "address";
                 NonNullPipe; Attr "city"])
  /\ keys_in_range
       (item_keys [Item (KStr "users"); Item (KInt 0); NonNullCall; Attr "address";
                   NonNullPipe; Attr "city"])
  /\ KeyOf.__init__
       (navigate proxy_type_attr sample_class_attr
          [Item (KStr "users"); Item (KInt 0); NonNullCall; Attr "address";
           NonNullPipe; Attr "city"])
     = Return (KeyOf.mk ["users"; "0"; "address"; "city"]).
Proof.
  assert (H : recorded_names proxy_type_attr
                (attr_names [Item (KStr "users"); Item (KInt 0); NonNullCall;
                             Attr "address"; NonNullPipe; Attr "city"]))
    by (repeat constructor).
  assert (K : keys_in_range
                (item_keys [Item (KStr "users"); Item (KInt 0); NonNullCall;
                            Attr "address"; NonNullPipe; Attr "city"]))
    by (repeat constructor).
  split; [exact H|]. split; [exact K|].
  exact (init_records_accesses proxy_type_attr sample_class_attr _ H K).
Defined.

Lemma init_stops_at_dunder_witness :
  recorded_names proxy_type_attr (attr_names [Attr "address"])
  /\ keys_in_range (item_keys [Attr "address"])
  /\ hook_name proxy_type_attr "__custom_attr__" = true
  /\ is_dunder "__custom_attr__" = true
  /\ KeyOf.__init__
       (navigate proxy_type_attr sample_class_attr
          ([Attr "address"] ++ Attr "__custom_attr__" :: [Attr "city"]))
     = Raise (AttributeError "__custom_attr__").
Proof.
  assert (H : recorded_names proxy_type_attr (attr_names [Attr "address"]))
    by (repeat constructor).
  assert (K : keys_in_range (item_keys [Attr "address"])) by constructor.
  split; [exact H|]. split; [exact K|]. split; [reflexivity|]. split; [reflexivity|].
  exact (init_stops_at_dunder proxy_type_attr sample_class_attr [Attr "address"]
           "__custom_attr__" [Attr "city"] H K eq_refl eq_refl).
Defined.

Lemma init_refuses_writes_witness :
  recorded_names proxy_type_attr (attr_names [Attr "address"])
  /\ keys_in_range (item_keys [Attr "address"])
  /\ KeyOf.__init__
       (fun x =>
          r <- navigate proxy_type_attr sample_class_attr [Attr "address"] x ;;
          match r with
          | Proxy y =>
              _ <- _PathProxy.__setattr__ y "some_attr" (VStr "value") ;;
              navigate proxy_type_attr sample_class_attr [Attr "some_attr"] y
          | Plain w => Return (Plain w)
          end)
     = Raise (TypeError "_PathProxy is read-only").
Proof.
  assert (H : recorded_names proxy_type_attr (attr_names [Attr "address"]))
    by (repeat constructor).
  assert (K : keys_in_range (item_keys [Attr "address"])) by constructor.
  split; [exact H|]. split; [exact K|].
  exact (init_refuses_writes proxy_type_attr sample_class_attr [Attr "address"]
           "some_attr" (VStr "value")
           (navigate proxy_type_attr sample_class_attr [Attr "some_attr"]) H K).
Defined.

(** What the chains of the model do where normal lookup answers: the
    selector [lambda x: x._parts] hands back a tuple and construction raises
    [TypeError], and so does [lambda x: x.address.__class__]. *)
Example init_on_names_lookup_finds :
  (exists msg, KeyOf.__init__ (navigate proxy_type_attr sample_class_attr [Attr "_parts"])
               = Raise (TypeError msg))
  /\ (exists msg, KeyOf.__init__
                    (navigate proxy_type_attr sample_class_attr
                       [Attr "address"; Attr "__class__"])
                  = Raise (TypeError msg)).
Proof. split; eexists; reflexivity. Qed.

(** ** Keys written by the proxy, read back by replay *)

Lemma decimal_value_uint_acc (d : Decimal.uint) :
  forall p : positive,
    decimal_value (Z.pos p) (NilEmpty.string_of_uint d) = Z.pos (Pos.of_uint_acc d p).
Proof.
  induction d; intros p; cbn [NilEmpty.string_of_uint decimal_value Pos.of_uint_acc];
    [reflexivity|..];
    match goal with
    | |- decimal_value ?a _ = Z.pos (Pos.of_uint_acc _ ?q) =>
        replace a with (Z.pos q)
          by (rewrite ?Pos2Z.inj_add, ?Pos2Z.inj_mul;
              match goal with
              | |- context [Z.of_nat (nat_of_ascii ?c)] =>
                  let v := eval vm_compute in (Z.of_nat (nat_of_ascii c)) in
                  change (Z.of_nat (nat_of_ascii c)) with v
              end; lia)
    end; apply IHd.
Qed.

Lemma decimal_value_uint (d : Decimal.uint) :
  decimal_value 0 (NilEmpty.string_of_uint d) = Z.of_N (Pos.of_uint d).
Proof.
  induction d; cbn [NilEmpty.string_of_uint decimal_value Pos.of_uint];
    [reflexivity | exact IHd | ..];
    match goal with
    | |- decimal_value ?a _ = Z.of_N (N.pos (Pos.of_uint_acc _ ?q)) =>
        change a with (Z.pos q)
    end; apply decimal_value_uint_acc.
Qed.

Lemma all_decimal_uint (d : Decimal.uint) :
  all_chars is_decimal (NilEmpty.string_of_uint d) = true.
Proof. induction d; cbn [NilEmpty.string_of_uint all_chars]; [reflexivity|..]; exact IHd. Qed.

Lemma all_decimal_isdigit (s : string) :
  all_chars is_decimal s = true -> all_chars is_digit_char s = true.
Proof.
  induction s as [|c s IH]; [reflexivity|]. cbn [all_chars].
  intros [Hc Hs]%andb_true_iff. rewrite (IH Hs), andb_true_r.
  unfold is_digit_char. now rewrite Hc.
Qed.

(** [str] of an index that is not negative passes [isdigit], and [int] reads
    the index back. *)
Lemma int_str_nonneg (n : Z) :
  (0 <= n)%Z -> isdigit (str_ (KInt n)) = true /\ int_ (str_ (KInt n)) = Return n.
Proof.
  intros Hn. destruct n as [|p|p]; [split; reflexivity | | lia].
  cbn [str_ Z.to_int NilZero.string_of_int]. unfold NilZero.string_of_uint.
  pose proof (DecimalPos.Unsigned.to_uint_nonnil p) as Hnil.
  pose proof (all_decimal_uint (Pos.to_uint p)) as Hall.
  pose proof (decimal_value_uint (Pos.to_uint p)) as Hval.
  rewrite DecimalPos.Unsigned.of_to in Hval.
  destruct (Pos.to_uint p) eqn:E; [now destruct Hnil|..];
    (split; [exact (all_decimal_isdigit _ Hall)|]);
    unfold int_; cbn [NilEmpty.string_of_uint] in *; rewrite Hall; now rewrite Hval.
Qed.

(** [str] of a negative index starts with a minus sign and fails [isdigit]. *)
Lemma isdigit_str_neg (n : Z) : (n < 0)%Z -> isdigit (str_ (KInt n)) = false.
Proof.
  intros Hn. destruct n as [|p|p]; [lia | lia |]. reflexivity.
Qed.

Lemma seq_not_None (s : value) : isinstance_seq s = true -> s <> VNone.
Proof. now intros H ->. Qed.

Lemma seq_instance_attr (s : value) (name : string) :
  isinstance_seq s = true -> KeyOf.instance_attr s name = None.
Proof. now destruct s. Qed.

Section KeyRoundTrip.

Variable class_attr : value -> string -> option value.
Variable type_attr : string -> option value.

Local Abbreviation from_ := (KeyOf.from_ class_attr).

(** Replay of a single segment that attribute lookup does not find. *)
Lemma from_single_item (part : string) (obj : value) (default : option value) :
  obj <> VNone ->
  KeyOf.instance_attr obj part = None ->
  class_attr obj part = None ->
  from_ (KeyOf.mk [part]) obj default
  = match KeyOf.item_access obj part with
    | Return v => Return v
    | Raise e =>
        if KeyOf.lookup_error e then
          match default with
          | None => Raise (AttributeError (KeyOf.msg_unresolved [part] obj 0 part))
          | Some d => Return d
          end
        else Raise e
    end.
Proof.
  intros Hn Hi Hc. destruct (getattr_missing class_attr obj part Hi Hc) as [msg Ha].
  unfold KeyOf.from_. cbn [KeyOf._parts].
  destruct (KeyOf.item_access obj part) as [v|e] eqn:Hitem.
  - now rewrite (from_loop_item class_attr [part] obj default 0 part [] obj Hn msg v Ha Hitem).
  - now rewrite (from_loop_item_error class_attr [part] obj default 0 part [] obj Hn msg e
                   Ha Hitem).
Qed.

(** X4.  An index that is not negative and within the digit limit survives
    the trip through the path: the path of [lambda x: x[n]] holds [str(n)],
    and on a list, a tuple or a string whose class has no attribute of that
    name replay reads [s[n]] back; an index out of range gives the default,
    or [AttributeError] when there is none. *)
Theorem index_round_trip :
  forall (s : value) (n : Z) (default : option value),
    isinstance_seq s = true ->
    (0 <= n)%Z ->
    small_int n = true ->
    class_attr s (str_ (KInt n)) = None ->
    KeyOf.__init__ (navigate type_attr class_attr [Item (KInt n)])
    = Return (KeyOf.mk [str_ (KInt n)])
    /\ from_ (KeyOf.mk [str_ (KInt n)]) s default
       = match getitem s (KInt n) with
         | Return v => Return v
         | Raise _ =>
             match default with
             | None =>
                 Raise (AttributeError
                          ("Cannot resolve '" ++ str_ (KInt n) ++ "' on " ++ type_name s
                           ++ " (path: '')"))
             | Some d => Return d
             end
         end.
Proof.
  intros s n default Hs Hn _ Hc. split; [reflexivity|].
  rewrite (from_single_item _ _ default (seq_not_None s Hs)
             (seq_instance_attr s _ Hs) Hc).
  destruct (int_str_nonneg n Hn) as [Hd Hint].
  unfold KeyOf.item_access. rewrite Hs, Hd, Hint. cbn [andb bind].
  destruct (getitem s (KInt n)) as [v|e] eqn:Hg; [reflexivity|].
  now rewrite (getitem_raises _ _ _ Hg).
Qed.

(** X5.  A negative index does not survive it: [str(n)] fails [isdigit], the
    segment is used as a key, and a list, a tuple or a string refuses a
    string key.  Replay gives the default, or raises [AttributeError], also
    where [s[n]] itself has a value. *)
Theorem negative_index_never_resolves :
  forall (s : value) (n : Z),
    isinstance_seq s = true ->
    (n < 0)%Z ->
    class_attr s (str_ (KInt n)) = None ->
    (forall d, from_ (KeyOf.mk [str_ (KInt n)]) s (Some d) = Return d)
    /\ from_ (KeyOf.mk [str_ (KInt n)]) s None
       = Raise (AttributeError
                  ("Cannot resolve '" ++ str_ (KInt n) ++ "' on " ++ type_name s
                   ++ " (path: '')")).
Proof.
  intros s n Hs Hn Hc.
  assert (E : forall default,
             from_ (KeyOf.mk [str_ (KInt n)]) s default
             = match default with
               | None => Raise (AttributeError (KeyOf.msg_unresolved [str_ (KInt n)] s 0
                                                  (str_ (KInt n))))
               | Some d => Return d
               end).
  { intros default.
    rewrite (from_single_item _ _ default (seq_not_None s Hs)
               (seq_instance_attr s _ Hs) Hc).
    unfold KeyOf.item_access. rewrite Hs, (isdigit_str_neg n Hn). cbn [andb].
    destruct s; try discriminate; reflexivity. }
  split; [intros d; exact (E (Some d)) | exact (E None)].
Qed.

Lemma lookup_no_string_key (m : list (dkey * value)) (t : string) :
  (forall s w, In (KStr s, w) m -> s <> t) ->
  lookup dkey_eqb (KStr t) m = None.
Proof.
  induction m as [|[k w] m IH]; intros H; [reflexivity|]. cbn [lookup].
  destruct k as [s|z]; cbn [dkey_eqb].
  - destruct (String.eqb_spec t s) as [->|_].
    + now destruct (H s w (or_introl eq_refl)).
    + apply IH. intros s' w' Hin. apply (H s' w'). now right.
  - apply IH. intros s' w' Hin. apply (H s' w'). now right.
Qed.

(** X6.  A string key of a mapping survives the trip: where [m[s]] has a
    value and [dict] has no attribute called [s], the path of
    [lambda x: x[s]] replays to that value. *)
Theorem string_key_round_trip :
  forall (m : list (dkey * value)) (s : string) (v : value) (default : option value),
    getitem (VDict m) (KStr s) = Return v ->
    class_attr (VDict m) s = None ->
    KeyOf.__init__ (navigate type_attr class_attr [Item (KStr s)]) = Return (KeyOf.mk [s])
    /\ from_ (KeyOf.mk [s]) (VDict m) default = Return v.
Proof.
  intros m s v default Hg Hc. split; [reflexivity|].
  rewrite (from_single_item s (VDict m) default ltac:(discriminate) eq_refl Hc).
  unfold KeyOf.item_access. cbn [isinstance_seq andb]. now rewrite Hg.
Qed.

(** X7.  An integer key of a mapping does not: for a key within the digit
    limit the path of [lambda x: x[n]] holds the string [str(n)], and replay
    asks the mapping for that string.  Unless the mapping has a string key
    spelled the same, replay gives the default, or raises [AttributeError],
    whatever [m[n]] holds. *)
Theorem integer_key_is_not_found :
  forall (m : list (dkey * value)) (n : Z),
    small_int n = true ->
    (forall s w, In (KStr s, w) m -> s <> str_ (KInt n)) ->
    class_attr (VDict m) (str_ (KInt n)) = None ->
    KeyOf.__init__ (navigate type_attr class_attr [Item (KInt n)])
    = Return (KeyOf.mk [str_ (KInt n)])
    /\ (forall d, from_ (KeyOf.mk [str_ (KInt n)]) (VDict m) (Some d) = Return d)
    /\ from_ (KeyOf.mk [str_ (KInt n)]) (VDict m) None
       = Raise (AttributeError
                  ("Cannot resolve '" ++ str_ (KInt n) ++ "' on dict (path: '')")).
Proof.
  intros m n _ Hkeys Hc. split; [reflexivity|].
  assert (E : forall default,
             from_ (KeyOf.mk [str_ (KInt n)]) (VDict m) default
             = match default with
               | None => Raise (AttributeError (KeyOf.msg_unresolved [str_ (KInt n)]
                                                  (VDict m) 0 (str_ (KInt n))))
               | Some d => Return d
               end).
  { intros default.
    rewrite (from_single_item _ (VDict m) default ltac:(discriminate) eq_refl Hc).
    unfold KeyOf.item_access. cbn [isinstance_seq andb getitem]. unfold mapping_getitem.
    now rewrite (lookup_no_string_key m _ Hkeys). }
  split; [intros d; exact (E (Some d)) | exact (E None)].
Qed.

End KeyRoundTrip.

Lemma index_round_trip_witness :
  isinstance_seq scores = true
  /\ (0 <= 1)%Z
  /\ small_int 1 = true
  /\ no_class_attr scores (str_ (KInt 1)) = None
  /\ KeyOf.__init__ (navigate proxy_type_attr no_class_attr [Item (KInt 1)])
     = Return (KeyOf.mk ["1"])
  /\ KeyOf.from_ no_class_attr (KeyOf.mk ["1"]) scores None = Return (VInt 20).
Proof.
  assert (H : (0 <= 1)%Z) by lia.
  split; [reflexivity|]. split; [exact H|]. split; [reflexivity|]. split; [reflexivity|].
  exact (index_round_trip no_class_attr proxy_type_attr scores 1 None eq_refl H eq_refl
           eq_refl).
Defined.

Lemma negative_index_never_resolves_witness :
  isinstance_seq scores = true
  /\ (-1 < 0)%Z
  /\ no_class_attr scores (str_ (KInt (-1))) = None
  /\ getitem scores (KInt (-1)) = Return (VInt 30)
  /\ (forall d, KeyOf.from_ no_class_attr (KeyOf.mk ["-1"]) scores (Some d) = Return d)
  /\ KeyOf.from_ no_class_attr (KeyOf.mk ["-1"]) scores None
     = Raise (AttributeError "Cannot resolve '-1' on list (path: '')").
Proof.
  assert (H : (-1 < 0)%Z) by lia.
  split; [reflexivity|]. split; [exact H|]. split; [reflexivity|]. split; [reflexivity|].
  exact (negative_index_never_resolves no_class_attr scores (-1) eq_refl H eq_refl).
Defined.

Lemma string_key_round_trip_witness :
  getitem london_dict (KStr "address") = Return (VDict [(KStr "city", VStr "London")])
  /\ sample_class_attr london_dict "address" = None
  /\ KeyOf.__init__ (navigate proxy_type_attr sample_class_attr [Item (KStr "address")])
     = Return (KeyOf.mk ["address"])
  /\ KeyOf.from_ sample_class_attr (KeyOf.mk ["address"]) london_dict None
     = Return (VDict [(KStr "city", VStr "London")]).
Proof.
  split; [reflexivity|]. split; [reflexivity|].
  exact (string_key_round_trip sample_class_attr proxy_type_attr
           [(KStr "address", VDict [(KStr "city", VStr "London")])] "address"
           (VDict [(KStr "city", VStr "London")]) None eq_refl eq_refl).
Defined.

Lemma integer_key_is_not_found_witness :
  small_int 0 = true
  /\ (forall s w, In (KStr s, w) [(KInt 0, VStr "zero")] -> s <> str_ (KInt 0))
  /\ sample_class_attr (VDict [(KInt 0, VStr "zero")]) (str_ (KInt 0)) = None
  /\ getitem (VDict [(KInt 0, VStr "zero")]) (KInt 0) = Return (VStr "zero")
  /\ KeyOf.__init__ (navigate proxy_type_attr sample_class_attr [Item (KInt 0)])
     = Return (KeyOf.mk ["0"])
  /\ (forall d, KeyOf.from_ sample_class_attr (KeyOf.mk ["0"])
                  (VDict [(KInt 0, VStr "zero")]) (Some d) = Return d)
  /\ KeyOf.from_ sample_class_attr (KeyOf.mk ["0"]) (VDict [(KInt 0, VStr "zero")]) None
     = Raise (AttributeError "Cannot resolve '0' on dict (path: '')").
Proof.
  assert (H : forall s w, In (KStr s, w) [(KInt 0, VStr "zero")] -> s <> str_ (KInt 0)).
  { intros s w [Hin|[]]. discriminate. }
  split; [reflexivity|]. split; [exact H|]. split; [reflexivity|]. split; [reflexivity|].
  exact (integer_key_is_not_found sample_class_attr proxy_type_attr
           [(KInt 0, VStr "zero")] 0 eq_refl H eq_refl).
Defined.

(** ** Replay: what it raises, and how it composes *)

Section ReplayComposition.

Variable class_attr : value -> string -> option value.

Local Abbreviation getattr := (KeyOf.getattr class_attr).
Local Abbreviation from_loop := (KeyOf.from_loop class_attr).
Local Abbreviation from_ := (KeyOf.from_ class_attr).

(** With a default, the result of the loop does not depend on the
    bookkeeping kept for messages. *)
Lemma from_loop_default_indep (d : value) (rest : list string) :
  forall parts1 obj1 i1 parts2 obj2 i2 cur,
    from_loop parts1 obj1 (Some d) i1 rest cur = from_loop parts2 obj2 (Some d) i2 rest cur.
Proof.
  induction rest as [|part rest IH]; intros parts1 obj1 i1 parts2 obj2 i2 cur;
    [reflexivity|].
  cbn [KeyOf.from_loop]. destruct (is_None cur); [reflexivity|].
  destruct (getattr cur part) as [v|[]]; try reflexivity; [apply IH|].
  destruct (KeyOf.item_access cur part) as [v|e]; [apply IH | reflexivity].
Qed.

Lemma from_loop_return_indep (rest : list string) :
  forall parts1 obj1 i1 parts2 obj2 i2 cur v,
    from_loop parts1 obj1 None i1 rest cur = Return v ->
    from_loop parts2 obj2 None i2 rest cur = Return v.
Proof.
  intros parts1 obj1 i1 parts2 obj2 i2 cur v H.
  pose proof (from_loop_prefix class_attr rest parts1 obj1 i1 cur v H
                parts2 obj2 None i2 []) as E.
  now rewrite app_nil_r in E.
Qed.

(** X9.  Replay composes along concatenation: when the segments [pre]
    replay from [obj] to [cur], the path [pre ++ rest] replays from [obj] as
    [rest] replays from [cur].  With a default the two calls agree outright;
    without one they return the same values (their error messages differ in
    the prefix they report). *)
Theorem replay_composes :
  forall (pre rest : list string) (obj cur : value),
    from_ (KeyOf.mk pre) obj None = Return cur ->
    (forall d, from_ (KeyOf.mk (pre ++ rest)) obj (Some d)
               = from_ (KeyOf.mk rest) cur (Some d))
    /\ (forall v, from_ (KeyOf.mk (pre ++ rest)) obj None = Return v
                  <-> from_ (KeyOf.mk rest) cur None = Return v).
Proof.
  intros pre rest obj cur H. split.
  - intros d. rewrite (from_prefix class_attr pre rest obj cur (Some d) H).
    unfold KeyOf.from_. cbn [KeyOf._parts]. apply from_loop_default_indep.
  - intros v. rewrite (from_prefix class_attr pre rest obj cur None H).
    unfold KeyOf.from_. cbn [KeyOf._parts]. split; apply from_loop_return_indep.
Qed.

End ReplayComposition.

Lemma replay_composes_witness :
  KeyOf.from_ sample_class_attr (KeyOf.mk ["users"]) users_dict None
  = Return (VList [VDict [(KStr "name", VStr "Alice")]])
  /\ (forall d,
         KeyOf.from_ sample_class_attr (KeyOf.mk (["users"] ++ ["0"; "name"])) users_dict
           (Some d)
         = KeyOf.from_ sample_class_attr (KeyOf.mk ["0"; "name"])
             (VList [VDict [(KStr "name", VStr "Alice")]]) (Some d))
  /\ (forall v,
         KeyOf.from_ sample_class_attr (KeyOf.mk (["users"] ++ ["0"; "name"])) users_dict
           None = Return v
         <-> KeyOf.from_ sample_class_attr (KeyOf.mk ["0"; "name"])
               (VList [VDict [(KStr "name", VStr "Alice")]]) None = Return v).
Proof.
  split; [reflexivity|].
  exact (replay_composes sample_class_attr ["users"] ["0"; "name"] users_dict
           (VList [VDict [(KStr "name", VStr "Alice")]]) eq_refl).
Defined.

(** ** Replay on any object: what leaves [from_] *)

Section ReplayAnyObject.

Variable getattr_fn : value -> string -> result value.
Variable getitem_fn : value -> dkey -> result value.

Local Abbreviation from_loop_with := (KeyOf.from_loop_with getattr_fn getitem_fn).
Local Abbreviation item_access_with := (KeyOf.item_access_with getitem_fn).

Lemma from_loop_with_raises (rest : list string) :
  forall parts obj default i cur e,
    from_loop_with parts obj default i rest cur = Raise e ->
    (default = None /\ exists j part, e = AttributeError (KeyOf.msg_on_None parts obj j part))
    \/ (default = None
        /\ exists j part c, e = AttributeError (KeyOf.msg_unresolved parts c j part))
    \/ (exists c part,
           In part rest /\ getattr_fn c part = Raise e
           /\ forall msg, e <> AttributeError msg)
    \/ (exists c part,
           In part rest /\ item_access_with c part = Raise e
           /\ KeyOf.lookup_error e = false).
Proof.
  induction rest as [|part rest IH]; intros parts obj default i cur e H; [discriminate|].
  assert (Hrest : forall v,
             from_loop_with parts obj default (S i) rest v = Raise e ->
             (default = None
              /\ exists j q, e = AttributeError (KeyOf.msg_on_None parts obj j q))
             \/ (default = None
                 /\ exists j q c, e = AttributeError (KeyOf.msg_unresolved parts c j q))
             \/ (exists c q,
                    In q (part :: rest) /\ getattr_fn c q = Raise e
                    /\ forall msg, e <> AttributeError msg)
             \/ (exists c q,
                    In q (part :: rest) /\ item_access_with c q = Raise e
                    /\ KeyOf.lookup_error e = false)).
  { intros v Hv.
    destruct (IH parts obj default (S i) v e Hv)
      as [H1|[H2|[(c & q & Hin & Hq)|(c & q & Hin & Hq)]]].
    - now left.
    - right. now left.
    - right. right. left. exists c, q. split; [now right | exact Hq].
    - right. right. right. exists c, q. split; [now right | exact Hq]. }
  cbn [KeyOf.from_loop_with] in H. destruct (is_None cur).
  { destruct default; [discriminate|]. injection H as <-.
    left. split; [reflexivity|]. now exists i, part. }
  destruct (getattr_fn cur part) as [v|e0] eqn:Ha; [exact (Hrest v H)|].
  assert (Hitem : forall msg, e0 = AttributeError msg ->
             match item_access_with cur part with
             | Return v => from_loop_with parts obj default (S i) rest v
             | Raise e1 =>
                 if KeyOf.lookup_error e1 then
                   match default with
                   | None => Raise (AttributeError (KeyOf.msg_unresolved parts cur i part))
                   | Some d => Return d
                   end
                 else Raise e1
             end = Raise e ->
             (default = None
              /\ exists j q, e = AttributeError (KeyOf.msg_on_None parts obj j q))
             \/ (default = None
                 /\ exists j q c, e = AttributeError (KeyOf.msg_unresolved parts c j q))
             \/ (exists c q,
                    In q (part :: rest) /\ getattr_fn c q = Raise e
                    /\ forall msg, e <> AttributeError msg)
             \/ (exists c q,
                    In q (part :: rest) /\ item_access_with c q = Raise e
                    /\ KeyOf.lookup_error e = false)).
  { intros msg _ Hm. destruct (item_access_with cur part) as [v|e1] eqn:Hi;
      [exact (Hrest v Hm)|].
    destruct (KeyOf.lookup_error e1) eqn:He.
    - destruct default; [discriminate|]. injection Hm as <-.
      right. left. split; [reflexivity|]. now exists i, part, cur.
    - injection Hm as <-. right. right. right. exists cur, part.
      split; [now left|]. split; [exact Hi | exact He]. }
  destruct e0 as [msg|msg|msg|msg|msg|cls msg]; [exact (Hitem msg eq_refl H)|..];
    injection H as <-; right; right; left; exists cur, part;
    (split; [now left|]); (split; [exact Ha|]); discriminate.
Qed.

(** X8.  What leaves [from_], whatever the objects on the way do.  An
    exception that leaves [from_] is the [AttributeError] that [from_] itself
    builds when no default is given, or an exception other than
    [AttributeError] that attribute access raised, or an exception other than
    [KeyError], [IndexError] and [TypeError] that the item access raised.  So
    a [KeyError], [IndexError] or [TypeError] that leaves [from_] comes from
    attribute access (a property or a hook of the object), never from the
    item access. *)
Theorem exceptions_leaving_from :
  forall (p : KeyOf.t) (obj : value) (default : option value) (e : exn),
    KeyOf.from_with getattr_fn getitem_fn p obj default = Raise e ->
    ((default = None
      /\ exists j part, e = AttributeError (KeyOf.msg_on_None (KeyOf.parts p) obj j part))
     \/ (default = None
         /\ exists j part c,
              e = AttributeError (KeyOf.msg_unresolved (KeyOf.parts p) c j part))
     \/ (exists c part,
            In part (KeyOf.parts p) /\ getattr_fn c part = Raise e
            /\ forall msg, e <> AttributeError msg)
     \/ (exists c part,
            In part (KeyOf.parts p) /\ item_access_with c part = Raise e
            /\ KeyOf.lookup_error e = false))
    /\ (KeyOf.lookup_error e = true ->
        exists c part, In part (KeyOf.parts p) /\ getattr_fn c part = Raise e).
Proof.
  intros [parts] obj default e H. unfold KeyOf.from_with, KeyOf.parts in *.
  cbn [KeyOf._parts] in *.
  pose proof (from_loop_with_raises parts parts obj default 0 obj e H) as Hcases.
  split; [exact Hcases|]. intros He.
  destruct Hcases as [(_ & j & q & ->)|[(_ & j & q & c & ->)|[(c & q & Hin & Hq & _)|
                      (c & q & _ & _ & Hne)]]]; try discriminate.
  - now exists c, q.
  - rewrite He in Hne. discriminate.
Qed.

End ReplayAnyObject.

(** The replay the claims are stated on is the instance whose attribute
    access and subscription are those of the value model. *)
Lemma from_is_from_with (class_attr : value -> string -> option value)
      (p : KeyOf.t) (obj : value) (default : option value) :
  KeyOf.from_ class_attr p obj default
  = KeyOf.from_with (KeyOf.getattr class_attr) getitem p obj default.
Proof. reflexivity. Qed.

Lemma exceptions_leaving_from_witness :
  KeyOf.from_with raising_getattr getitem (KeyOf.mk ["boom"]) (VOpaque "Account")
    (Some (VStr "N/A"))
  = Raise (KeyError "'k'")
  /\ KeyOf.lookup_error (KeyError "'k'") = true
  /\ exists c part,
       In part (KeyOf.parts (KeyOf.mk ["boom"]))
       /\ raising_getattr c part = Raise (KeyError "'k'").
Proof.
  split; [reflexivity|]. split; [reflexivity|].
  exact (proj2 (exceptions_leaving_from raising_getattr getitem (KeyOf.mk ["boom"])
                  (VOpaque "Account") (Some (VStr "N/A")) (KeyError "'k'") eq_refl)
           eq_refl).
Defined.

(** ** Root, leaf and parent *)

Lemma seq_getitem_first (A : Type) (kind : string) (x : A) (xs : list A) :
  seq_getitem kind (x :: xs) 0 = Return x.
Proof.
  unfold seq_getitem. cbn [List.length]. change (0 <? 0)%Z with false. cbv iota.
  destruct (Z.ltb_spec 0 (Z.of_nat (S (List.length xs)))) as [_|H]; [reflexivity | lia].
Qed.

Lemma seq_getitem_last (A : Type) (kind : string) (xs : list A) (x : A) :
  seq_getitem kind (xs ++ [x]) (-1) = Return x.
Proof.
  unfold seq_getitem. rewrite length_app. cbn [List.length].
  change (-1 <? 0)%Z with true. cbv iota.
  replace (-1 + Z.of_nat (List.length xs + 1))%Z with (Z.of_nat (List.length xs)) by lia.
  rewrite Nat2Z.id.
  destruct (Z.leb_spec 0 (Z.of_nat (List.length xs))) as [_|H]; [|lia].
  destruct (Z.ltb_spec (Z.of_nat (List.length xs)) (Z.of_nat (List.length xs + 1)))
    as [_|H]; [|lia].
  cbn [andb]. rewrite nth_error_app2 by lia. now rewrite Nat.sub_diag.
Qed.

(** X10.  On a path that is not empty, [root] is its first segment and
    [leaf] its last: the index rule of tuples makes [_parts[-1]] the last
    element whatever the depth. *)
Theorem root_and_leaf :
  forall (first : string) (middle : list string) (last : string),
    KeyOf.root (KeyOf.mk (first :: middle)) = Return first
    /\ KeyOf.leaf (KeyOf.mk (middle ++ [last])) = Return last
    /\ KeyOf.root (KeyOf.mk [first]) = KeyOf.leaf (KeyOf.mk [first]).
Proof.
  intros first middle last. unfold KeyOf.root, KeyOf.leaf. cbn [KeyOf._parts].
  split; [apply seq_getitem_first|]. split; [apply seq_getitem_last|].
  rewrite seq_getitem_first. symmetry. exact (seq_getitem_last string "tuple" [] first).
Qed.

(** A path with a parent is the parent's segments followed by its leaf. *)
Lemma parent_leaf_parts (p q : KeyOf.t) (l : string) :
  KeyOf.parent p = Return q ->
  KeyOf.leaf p = Return l ->
  KeyOf.parts p = (KeyOf.parts q ++ [l])%list /\ KeyOf.parts q <> [].
Proof.
  destruct p as [parts]. unfold KeyOf.parent, KeyOf.leaf, KeyOf.parts. cbn [KeyOf._parts].
  destruct (Nat.ltb_spec (List.length parts) 2) as [|Hlen]; [discriminate|].
  intros Hq Hl. injection Hq as <-. cbn [KeyOf._parts].
  rewrite slice_to_minus_one.
  assert (Hne : parts <> []) by (intros ->; simpl in Hlen; lia).
  pose proof (app_removelast_last "" Hne) as E.
  rewrite E in Hl at 1. rewrite seq_getitem_last in Hl. injection Hl as <-.
  split; [exact E|].
  intros Hnil. rewrite Hnil in E. rewrite E in Hlen. simpl in Hlen. lia.
Qed.

Lemma str_append_assoc (a b c : string) : (a ++ b) ++ c = a ++ (b ++ c).
Proof. induction a as [|x a IH]; simpl; [reflexivity | now rewrite IH]. Qed.

Lemma join_snoc (sep : string) (xs : list string) (x : string) :
  xs <> [] -> join sep (xs ++ [x]) = join sep xs ++ sep ++ x.
Proof.
  induction xs as [|y xs IH]; intros H; [now destruct H|].
  destruct xs as [|z xs]; [reflexivity|].
  change (join sep ((y :: z :: xs) ++ [x])) with (y ++ sep ++ join sep ((z :: xs) ++ [x])).
  rewrite IH by discriminate.
  change (join sep (y :: z :: xs)) with (y ++ sep ++ join sep (z :: xs)).
  now rewrite !str_append_assoc.
Qed.

Lemma join_empty_snoc (xs : list string) (x : string) :
  join "" (xs ++ [x]) = join "" xs ++ x.
Proof.
  induction xs as [|y xs IH]; [reflexivity|].
  destruct xs as [|z xs]; [reflexivity|].
  change (join "" ((y :: z :: xs) ++ [x])) with (y ++ "" ++ join "" ((z :: xs) ++ [x])).
  rewrite IH.
  change (join "" (y :: z :: xs)) with (y ++ "" ++ join "" (z :: xs)).
  cbn [append]. now rewrite str_append_assoc.
Qed.

(** X11.  What [parent] keeps and what it drops: the parent is one segment
    shorter and has the same root, and each rendering of the path is the
    parent's rendering with the leaf added in that notation. *)
Theorem parent_and_renderings :
  forall (p q : KeyOf.t) (l : string),
    KeyOf.parent p = Return q ->
    KeyOf.leaf p = Return l ->
    KeyOf.depth p = S (KeyOf.depth q)
    /\ KeyOf.root q = KeyOf.root p
    /\ KeyOf.to_dot p = KeyOf.to_dot q ++ "." ++ l
    /\ KeyOf.to_posix p = KeyOf.to_posix q ++ "/" ++ l
    /\ KeyOf.to_bracket p = KeyOf.to_bracket q ++ "['" ++ l ++ "']"
    /\ KeyOf.to_jsonpath p = KeyOf.to_jsonpath q ++ "." ++ l
    /\ KeyOf.to_xpath p = KeyOf.to_xpath q ++ "/" ++ l.
Proof.
  intros p q l Hq Hl. destruct (parent_leaf_parts p q l Hq Hl) as [E Hne].
  destruct p as [parts], q as [qs]. unfold KeyOf.parts in *. cbn [KeyOf._parts] in *.
  subst parts.
  unfold KeyOf.depth, KeyOf.root, KeyOf.to_dot, KeyOf.to_posix, KeyOf.to_bracket,
    KeyOf.to_jsonpath, KeyOf.to_xpath. cbn [KeyOf._parts].
  split; [rewrite length_app; simpl; lia|].
  split; [destruct qs as [|x qs]; [now destruct Hne|];
          cbn [app]; now rewrite !seq_getitem_first|].
  rewrite !(join_snoc _ qs l Hne), map_app. cbn [List.map].
  rewrite join_empty_snoc.
  repeat split; reflexivity.
Qed.

Lemma parent_and_renderings_witness :
  KeyOf.parent (KeyOf.mk ["users"; "0"; "name"]) = Return (KeyOf.mk ["users"; "0"])
  /\ KeyOf.leaf (KeyOf.mk ["users"; "0"; "name"]) = Return "name"
  /\ KeyOf.depth (KeyOf.mk ["users"; "0"; "name"]) = S (KeyOf.depth (KeyOf.mk ["users"; "0"]))
  /\ KeyOf.root (KeyOf.mk ["users"; "0"]) = KeyOf.root (KeyOf.mk ["users"; "0"; "name"])
  /\ KeyOf.to_dot (KeyOf.mk ["users"; "0"; "name"])
     = KeyOf.to_dot (KeyOf.mk ["users"; "0"]) ++ "." ++ "name"
  /\ KeyOf.to_posix (KeyOf.mk ["users"; "0"; "name"])
     = KeyOf.to_posix (KeyOf.mk ["users"; "0"]) ++ "/" ++ "name"
  /\ KeyOf.to_bracket (KeyOf.mk ["users"; "0"; "name"])
     = KeyOf.to_bracket (KeyOf.mk ["users"; "0"]) ++ "['" ++ "name" ++ "']"
  /\ KeyOf.to_jsonpath (KeyOf.mk ["users"; "0"; "name"])
     = KeyOf.to_jsonpath (KeyOf.mk ["users"; "0"]) ++ "." ++ "name"
  /\ KeyOf.to_xpath (KeyOf.mk ["users"; "0"; "name"])
     = KeyOf.to_xpath (KeyOf.mk ["users"; "0"]) ++ "/" ++ "name".
Proof.
  split; [reflexivity|]. split; [reflexivity|].
  exact (parent_and_renderings (KeyOf.mk ["users"; "0"; "name"]) (KeyOf.mk ["users"; "0"])
           "name" eq_refl eq_refl).
Defined.

(** X12.  Replay goes through the parent: when the parent of a path replays
    to [cur], the path replays as its leaf alone replays from [cur].  With a
    default the two calls agree outright; without one they return the same
    values. *)
Theorem replay_through_parent :
  forall (class_attr : value -> string -> option value) (p q : KeyOf.t) (l : string)
         (obj cur : value),
    KeyOf.parent p = Return q ->
    KeyOf.leaf p = Return l ->
    KeyOf.from_ class_attr q obj None = Return cur ->
    (forall d, KeyOf.from_ class_attr p obj (Some d)
               = KeyOf.from_ class_attr (KeyOf.mk [l]) cur (Some d))
    /\ (forall v, KeyOf.from_ class_attr p obj None = Return v
                  <-> KeyOf.from_ class_attr (KeyOf.mk [l]) cur None = Return v).
Proof.
  intros class_attr p q l obj cur Hq Hl Hcur.
  destruct (parent_leaf_parts p q l Hq Hl) as [E _].
  destruct p as [parts], q as [qs]. unfold KeyOf.parts in E. cbn [KeyOf._parts] in E.
  subst parts. split.
  - intros d. rewrite (from_prefix class_attr qs [l] obj cur (Some d) Hcur).
    unfold KeyOf.from_. cbn [KeyOf._parts]. apply from_loop_default_indep.
  - intros v. rewrite (from_prefix class_attr qs [l] obj cur None Hcur).
    unfold KeyOf.from_. cbn [KeyOf._parts]. split; apply from_loop_return_indep.
Qed.

Lemma replay_through_parent_witness :
  KeyOf.parent (KeyOf.mk ["address"; "city"]) = Return (KeyOf.mk ["address"])
  /\ KeyOf.leaf (KeyOf.mk ["address"; "city"]) = Return "city"
  /\ KeyOf.from_ no_class_attr (KeyOf.mk ["address"]) london_user None
     = Return (VObj "Address" [("city", VStr "London")] None)
  /\ (forall d,
         KeyOf.from_ no_class_attr (KeyOf.mk ["address"; "city"]) london_user (Some d)
         = KeyOf.from_ no_class_attr (KeyOf.mk ["city"])
             (VObj "Address" [("city", VStr "London")] None) (Some d))
  /\ (forall v,
         KeyOf.from_ no_class_attr (KeyOf.mk ["address"; "city"]) london_user None
         = Return v
         <-> KeyOf.from_ no_class_attr (KeyOf.mk ["city"])
               (VObj "Address" [("city", VStr "London")] None) None = Return v).
Proof.
  split; [reflexivity|]. split; [reflexivity|]. split; [reflexivity|].
  exact (replay_through_parent no_class_attr (KeyOf.mk ["address"; "city"])
           (KeyOf.mk ["address"]) "city" london_user
           (VObj "Address" [("city", VStr "London")] None) eq_refl eq_refl eq_refl).
Defined.

(** ** The dot rendering and equality with strings *)

Lemma dot_free_cons (c : ascii) (s : string) :
  dot_free (String c s) = true -> c <> "."%char /\ dot_free s = true.
Proof.
  unfold dot_free. cbn [all_chars]. intros [Hc Hs]%andb_true_iff. split; [|exact Hs].
  intros ->. discriminate.
Qed.

Lemma dot_free_split (a : string) :
  forall b x y,
    dot_free a = true -> dot_free b = true ->
    a ++ "." ++ x = b ++ "." ++ y -> a = b /\ x = y.
Proof.
  induction a as [|c a IH]; intros [|d b] x y Ha Hb H; cbn [append] in H.
  - injection H as ->. now split.
  - injection H as Hd _. destruct (dot_free_cons d b Hb) as [Hne _]. now destruct Hne.
  - injection H as Hc _. destruct (dot_free_cons c a Ha) as [Hne _]. now destruct Hne.
  - injection H as -> H.
    destruct (IH b x y (proj2 (dot_free_cons d a Ha)) (proj2 (dot_free_cons d b Hb)) H)
      as [-> ->].
    now split.
Qed.

Lemma dot_free_no_dot (b : string) :
  forall a y, dot_free a = true -> a <> b ++ "." ++ y.
Proof.
  induction b as [|d b IH]; intros a y Ha H; cbn [append] in H.
  - subst a. destruct (dot_free_cons _ _ Ha) as [Hne _]. now destruct Hne.
  - destruct a as [|c a]; [discriminate|]. injection H as -> H.
    exact (IH a y (proj2 (dot_free_cons d a Ha)) H).
Qed.

Lemma join_dot_injective (ps : list string) :
  forall qs,
    Forall (fun s => dot_free s = true) ps ->
    Forall (fun s => dot_free s = true) qs ->
    ps <> [] -> qs <> [] ->
    join "." ps = join "." qs -> ps = qs.
Proof.
  induction ps as [|a ps IH]; intros qs Hp Hq Hpn Hqn H; [now destruct Hpn|].
  destruct qs as [|b qs]; [now destruct Hqn|].
  inversion Hp as [|? ? Ha Hps]; inversion Hq as [|? ? Hb Hqs]; subst.
  destruct ps as [|a2 ps], qs as [|b2 qs].
  - cbn in H. now subst.
  - change (a = b ++ "." ++ join "." (b2 :: qs)) in H.
    now destruct (dot_free_no_dot b a (join "." (b2 :: qs)) Ha).
  - change (a ++ "." ++ join "." (a2 :: ps) = b) in H. symmetry in H.
    now destruct (dot_free_no_dot a b (join "." (a2 :: ps)) Hb).
  - change (a ++ "." ++ join "." (a2 :: ps) = b ++ "." ++ join "." (b2 :: qs)) in H.
    destruct (dot_free_split a b _ _ Ha Hb H) as [-> Hrest].
    f_equal. apply IH; try assumption; discriminate.
Qed.

(** X13.  Among non-empty paths whose segments hold no dot, the dot
    rendering tells paths apart: two such paths with the same [to_dot] have
    the same segments, so a path that equals the string of another equals
    that path. *)
Theorem to_dot_separates_dot_free_paths :
  forall p q : KeyOf.t,
    Forall (fun s => dot_free s = true) (KeyOf.parts p) ->
    Forall (fun s => dot_free s = true) (KeyOf.parts q) ->
    0 < KeyOf.depth p -> 0 < KeyOf.depth q ->
    (KeyOf.to_dot p = KeyOf.to_dot q -> KeyOf.parts p = KeyOf.parts q)
    /\ (KeyOf.equals p (KeyOf.Other (VStr (KeyOf.to_dot q))) = true ->
        KeyOf.equals p (KeyOf.Path q) = true).
Proof.
  intros [ps] [qs] Hp Hq Hdp Hdq.
  unfold KeyOf.parts, KeyOf.depth, KeyOf.to_dot, KeyOf.equals in *.
  cbn [KeyOf._parts KeyOf.__eq__ KeyOf.to_dot] in *.
  assert (Hinj : join "." ps = join "." qs -> ps = qs).
  { apply join_dot_injective; try assumption.
    - intros ->. simpl in Hdp. lia.
    - intros ->. simpl in Hdq. lia. }
  split; [exact Hinj|].
  unfold KeyOf.to_dot. cbn [KeyOf._parts].
  intros H%String.eqb_eq. apply tuple_eqb_eq. exact (Hinj H).
Qed.

Lemma to_dot_separates_dot_free_paths_witness :
  Forall (fun s => dot_free s = true) (KeyOf.parts (KeyOf.mk ["address"; "city"]))
  /\ 0 < KeyOf.depth (KeyOf.mk ["address"; "city"])
  /\ (KeyOf.to_dot (KeyOf.mk ["address"; "city"]) = KeyOf.to_dot (KeyOf.mk ["address"; "city"])
      -> KeyOf.parts (KeyOf.mk ["address"; "city"]) = KeyOf.parts (KeyOf.mk ["address"; "city"]))
  /\ (KeyOf.equals (KeyOf.mk ["address"; "city"])
        (KeyOf.Other (VStr (KeyOf.to_dot (KeyOf.mk ["address"; "city"])))) = true
      -> KeyOf.equals (KeyOf.mk ["address"; "city"])
           (KeyOf.Path (KeyOf.mk ["address"; "city"])) = true).
Proof.
  assert (H : Forall (fun s => dot_free s = true)
                (KeyOf.parts (KeyOf.mk ["address"; "city"]))) by (repeat constructor).
  assert (Hd : 0 < KeyOf.depth (KeyOf.mk ["address"; "city"])) by (cbv; lia).
  split; [exact H|]. split; [exact Hd|].
  exact (to_dot_separates_dot_free_paths (KeyOf.mk ["address"; "city"])
           (KeyOf.mk ["address"; "city"]) H H Hd Hd).
Defined.

Lemma join_dot_merge (a : list string) (s t : string) (b : list string) :
  join "." (a ++ s :: t :: b) = join "." (a ++ (s ++ "." ++ t) :: b).
Proof.
  induction a as [|x a IH].
  - cbn [app]. destruct b as [|c b]; [reflexivity|].
    change (s ++ "." ++ (t ++ "." ++ join "." (c :: b))
            = (s ++ "." ++ t) ++ "." ++ join "." (c :: b)).
    now rewrite !str_append_assoc.
  - destruct a as [|y a].
    + change (x ++ "." ++ join "." ([] ++ s :: t :: b)
              = x ++ "." ++ join "." ([] ++ (s ++ "." ++ t) :: b)).
      now rewrite IH.
    + change (x ++ "." ++ join "." ((y :: a) ++ s :: t :: b)
              = x ++ "." ++ join "." ((y :: a) ++ (s ++ "." ++ t) :: b)).
      now rewrite IH.
Qed.

Lemma tuple_eqb_length (t1 t2 : list string) :
  List.length t1 <> List.length t2 -> tuple_eqb t1 t2 = false.
Proof.
  intros H. destruct (tuple_eqb t1 t2) eqn:E; [|reflexivity].
  apply tuple_eqb_eq in E. now subst.
Qed.

(** X14.  A dot inside a segment is not told apart from a segment boundary:
    the path with the adjacent segments [s] and [t] and the path with the one
    segment [s.t] in their place have the same dot rendering and both equal
    that string, yet do not equal each other.  The empty path and the path
    with one empty segment collide in the same way. *)
Theorem dotted_segment_collides :
  forall (a : list string) (s t : string) (b : list string),
    KeyOf.to_dot (KeyOf.mk (a ++ s :: t :: b))
    = KeyOf.to_dot (KeyOf.mk (a ++ (s ++ "." ++ t) :: b))
    /\ KeyOf.equals (KeyOf.mk (a ++ s :: t :: b))
         (KeyOf.Other (VStr (KeyOf.to_dot (KeyOf.mk (a ++ (s ++ "." ++ t) :: b))))) = true
    /\ KeyOf.equals (KeyOf.mk (a ++ s :: t :: b))
         (KeyOf.Path (KeyOf.mk (a ++ (s ++ "." ++ t) :: b))) = false
    /\ KeyOf.to_dot (KeyOf.mk []) = KeyOf.to_dot (KeyOf.mk [""])
    /\ KeyOf.equals (KeyOf.mk []) (KeyOf.Path (KeyOf.mk [""])) = false.
Proof.
  intros a s t b. unfold KeyOf.equals, KeyOf.to_dot. cbn [KeyOf.__eq__ KeyOf._parts].
  unfold KeyOf.to_dot. cbn [KeyOf._parts].
  split; [apply join_dot_merge|].
  split; [rewrite join_dot_merge; apply String.eqb_refl|].
  split; [|split; reflexivity].
  apply tuple_eqb_length. rewrite !length_app. cbn [List.length]. lia.
Qed.

(** ** Custom templates *)

(** X15.  [format] evaluates [root] and [leaf] before it looks at the
    template: on the identity path it raises [IndexError] for every template,
    one that names no variable included.  On any other path it calls
    [template.format] with the first and last segment as [root] and [leaf],
    the renderings of the path, and a [sep] that formats as the dot rendering
    under every format spec and joins the segments with any separator asked
    for. *)
Theorem format_needs_a_segment :
  forall (str_format : string -> KeyOf.format_args -> result string)
         (p : KeyOf.t) (template : string),
    (KeyOf.depth p = 0 ->
     KeyOf.format str_format p template = Raise (IndexError "tuple index out of range"))
    /\ (forall r l, KeyOf.root p = Return r -> KeyOf.leaf p = Return l ->
          exists args,
            KeyOf.format str_format p template = str_format template args
            /\ KeyOf.arg_root args = r /\ KeyOf.arg_leaf args = l
            /\ KeyOf.arg_depth args = KeyOf.depth p
            /\ KeyOf.arg_dot args = KeyOf.to_dot p
            /\ (forall spec, _JoinHelper.__format__ (KeyOf.arg_sep args) spec
                             = KeyOf.to_dot p)
            /\ (forall sep, _JoinHelper.join (KeyOf.arg_sep args) (Some sep)
                            = join sep (KeyOf.parts p))).
Proof.
  intros str_format [parts] template. split.
  - unfold KeyOf.depth. cbn [KeyOf._parts]. intros H%length_zero_iff_nil. subst parts.
    reflexivity.
  - intros r l Hr Hl. unfold KeyOf.format. rewrite Hr, Hl. cbn [bind].
    eexists. split; [reflexivity|]. cbn. repeat split.
Qed.

Lemma format_needs_a_segment_witness :
  (KeyOf.depth (KeyOf.mk []) = 0
   /\ KeyOf.format (fun template _ => Return template) (KeyOf.mk []) "no variables"
      = Raise (IndexError "tuple index out of range"))
  /\ (KeyOf.root (KeyOf.mk ["address"; "city"]) = Return "address"
      /\ KeyOf.leaf (KeyOf.mk ["address"; "city"]) = Return "city"
      /\ exists args,
           KeyOf.format (fun template _ => Return template)
             (KeyOf.mk ["address"; "city"]) "no variables" = Return "no variables"
           /\ KeyOf.arg_root args = "address").
Proof.
  split.
  - split; [reflexivity|].
    exact (proj1 (format_needs_a_segment (fun template _ => Return template)
                    (KeyOf.mk []) "no variables") eq_refl).
  - split; [reflexivity|]. split; [reflexivity|].
    destruct (proj2 (format_needs_a_segment (fun template _ => Return template)
                       (KeyOf.mk ["address"; "city"]) "no variables")
                "address" "city" eq_refl eq_refl) as (args & Hf & Hr & _).
    exists args. split; [exact Hf | exact Hr].
Defined.

(** ** Ordering *)

Section SeqOrder.

Variable A : Type.
Variables eqb ltb : A -> A -> bool.

Hypothesis eqb_eq : forall a b, eqb a b = true <-> a = b.
Hypothesis ltb_irrefl : forall a, ltb a a = false.
Hypothesis ltb_trans : forall a b c, ltb a b = true -> ltb b c = true -> ltb a c = true.
Hypothesis ltb_total : forall a b, a <> b -> ltb a b = true \/ ltb b a = true.

Lemma eqb_refl_true (a : A) : eqb a a = true.
Proof. now apply eqb_eq. Qed.

Lemma seq_ltb_irrefl (s : list A) : seq_ltb eqb ltb s s = false.
Proof.
  induction s as [|a s IH]; [reflexivity|]. cbn [seq_ltb]. now rewrite eqb_refl_true.
Qed.

Lemma seq_ltb_trans (s1 : list A) :
  forall s2 s3,
    seq_ltb eqb ltb s1 s2 = true -> seq_ltb eqb ltb s2 s3 = true ->
    seq_ltb eqb ltb s1 s3 = true.
Proof.
  induction s1 as [|a s1 IH]; intros [|b s2] [|c s3]; cbn [seq_ltb]; try easy.
  destruct (eqb a b) eqn:Eab, (eqb b c) eqn:Ebc.
  - apply eqb_eq in Eab, Ebc. subst. rewrite eqb_refl_true. apply IH.
  - apply eqb_eq in Eab. subst. now rewrite Ebc.
  - apply eqb_eq in Ebc. subst. now rewrite Eab.
  - intros H1 H2. pose proof (ltb_trans _ _ _ H1 H2) as H13.
    destruct (eqb a c) eqn:Eac; [|exact H13].
    apply eqb_eq in Eac. subst. now rewrite ltb_irrefl in H13.
Qed.

Lemma seq_ltb_total (s1 : list A) :
  forall s2, s1 <> s2 -> seq_ltb eqb ltb s1 s2 = true \/ seq_ltb eqb ltb s2 s1 = true.
Proof.
  induction s1 as [|a s1 IH]; intros [|b s2] H; cbn [seq_ltb].
  - now destruct H.
  - now left.
  - now right.
  - destruct (eqb a b) eqn:Eab.
    + apply eqb_eq in Eab. subst. rewrite eqb_refl_true. apply IH. congruence.
    + assert (Hne : a <> b) by (intros ->; now rewrite eqb_refl_true in Eab).
      destruct (eqb b a) eqn:Eba; [apply eqb_eq in Eba; now destruct Hne|].
      now apply ltb_total.
Qed.

Lemma seq_ltb_prefix (s ext : list A) :
  ext <> [] -> seq_ltb eqb ltb s (s ++ ext) = true.
Proof.
  intros H. induction s as [|a s IH]; cbn [app seq_ltb].
  - destruct ext; [now destruct H | reflexivity].
  - now rewrite eqb_refl_true.
Qed.

End SeqOrder.

Lemma char_ltb_total (a b : ascii) :
  a <> b -> char_ltb a b = true \/ char_ltb b a = true.
Proof.
  intros H. unfold char_ltb.
  destruct (Nat.lt_total (nat_of_ascii a) (nat_of_ascii b)) as [Hlt|[Heq|Hgt]].
  - left. now apply Nat.ltb_lt.
  - destruct H. rewrite <- (ascii_nat_embedding a), <- (ascii_nat_embedding b).
    now rewrite Heq.
  - right. now apply Nat.ltb_lt.
Qed.

Lemma char_ltb_trans (a b c : ascii) :
  char_ltb a b = true -> char_ltb b c = true -> char_ltb a c = true.
Proof. unfold char_ltb. rewrite !Nat.ltb_lt. lia. Qed.

Lemma str_ltb_irrefl (s : string) : str_ltb s s = false.
Proof.
  apply seq_ltb_irrefl. exact Ascii.eqb_eq.
Qed.

Lemma str_ltb_trans (a b c : string) :
  str_ltb a b = true -> str_ltb b c = true -> str_ltb a c = true.
Proof.
  apply seq_ltb_trans.
  - exact Ascii.eqb_eq.
  - intros x. unfold char_ltb. apply Nat.ltb_irrefl.
  - exact char_ltb_trans.
Qed.

Lemma str_ltb_total (a b : string) :
  a <> b -> str_ltb a b = true \/ str_ltb b a = true.
Proof.
  intros H. apply seq_ltb_total.
  - exact Ascii.eqb_eq.
  - exact char_ltb_total.
  - intros E. apply H.
    rewrite <- (string_of_list_ascii_of_string a), <- (string_of_list_ascii_of_string b).
    now rewrite E.
Qed.

Lemma tuple_ltb_irrefl (t : list string) : tuple_ltb t t = false.
Proof. apply seq_ltb_irrefl. exact String.eqb_eq. Qed.

Lemma tuple_ltb_trans (a b c : list string) :
  tuple_ltb a b = true -> tuple_ltb b c = true -> tuple_ltb a c = true.
Proof.
  apply seq_ltb_trans.
  - exact String.eqb_eq.
  - exact str_ltb_irrefl.
  - exact str_ltb_trans.
Qed.

Lemma tuple_ltb_total (a b : list string) :
  a <> b -> tuple_ltb a b = true \/ tuple_ltb b a = true.
Proof.
  apply seq_ltb_total; [exact String.eqb_eq | exact str_ltb_total].
Qed.

Lemma less_than_path (p q : KeyOf.t) (b : bool) :
  KeyOf.less_than p (KeyOf.Path q) = Return b
  <-> tuple_ltb (KeyOf.parts p) (KeyOf.parts q) = b.
Proof.
  unfold KeyOf.less_than, KeyOf.parts. cbn [KeyOf.__lt__]. split.
  - intros H. now injection H.
  - now intros ->.
Qed.

(** X16.  [<] is a strict total order on paths that agrees with [==]: no
    path is below itself, the order is transitive, and of [p < q], [p == q]
    and [q < p] exactly one holds.  Against anything that is no path, a
    string included, [<] raises [TypeError]. *)
Theorem less_than_is_a_strict_total_order :
  forall p q r : KeyOf.t,
    KeyOf.less_than p (KeyOf.Path p) = Return false
    /\ (KeyOf.less_than p (KeyOf.Path q) = Return true ->
        KeyOf.less_than q (KeyOf.Path r) = Return true ->
        KeyOf.less_than p (KeyOf.Path r) = Return true)
    /\ (KeyOf.less_than p (KeyOf.Path q) = Return true
        \/ KeyOf.equals p (KeyOf.Path q) = true
        \/ KeyOf.less_than q (KeyOf.Path p) = Return true)
    /\ (KeyOf.less_than p (KeyOf.Path q) = Return true ->
        KeyOf.equals p (KeyOf.Path q) = false
        /\ KeyOf.less_than q (KeyOf.Path p) = Return false)
    /\ (forall v, exists msg, KeyOf.less_than p (KeyOf.Other v) = Raise (TypeError msg)).
Proof.
  intros p q r. rewrite !less_than_path.
  unfold KeyOf.equals. cbn [KeyOf.__eq__]. fold (KeyOf.parts p) (KeyOf.parts q).
  split; [apply tuple_ltb_irrefl|]. split; [apply tuple_ltb_trans|]. split; [|split].
  - destruct (tuple_eqb (KeyOf.parts p) (KeyOf.parts q)) eqn:E; [now right; left|].
    assert (Hne : KeyOf.parts p <> KeyOf.parts q).
    { intros H%tuple_eqb_eq. congruence. }
    destruct (tuple_ltb_total _ _ Hne) as [H|H]; [now left|].
    right. right. exact H.
  - intros Hlt. split.
    + destruct (tuple_eqb (KeyOf.parts p) (KeyOf.parts q)) eqn:E; [|reflexivity].
      apply tuple_eqb_eq in E. rewrite E, tuple_ltb_irrefl in Hlt. discriminate.
    + destruct (tuple_ltb (KeyOf.parts q) (KeyOf.parts p)) eqn:E; [|reflexivity].
      pose proof (tuple_ltb_trans _ _ _ Hlt E) as H.
      rewrite tuple_ltb_irrefl in H. discriminate.
  - intros v. eexists. reflexivity.
Qed.

Lemma less_than_is_a_strict_total_order_witness :
  KeyOf.less_than (KeyOf.mk ["id"]) (KeyOf.Path (KeyOf.mk ["metadata"])) = Return true
  /\ KeyOf.less_than (KeyOf.mk ["metadata"]) (KeyOf.Path (KeyOf.mk ["name"])) = Return true
  /\ KeyOf.less_than (KeyOf.mk ["id"]) (KeyOf.Path (KeyOf.mk ["name"])) = Return true
  /\ KeyOf.equals (KeyOf.mk ["id"]) (KeyOf.Path (KeyOf.mk ["metadata"])) = false
  /\ KeyOf.less_than (KeyOf.mk ["metadata"]) (KeyOf.Path (KeyOf.mk ["id"])) = Return false.
Proof.
  destruct (less_than_is_a_strict_total_order (KeyOf.mk ["id"]) (KeyOf.mk ["metadata"])
              (KeyOf.mk ["name"])) as (_ & Htrans & _ & Hasym & _).
  split; [reflexivity|]. split; [reflexivity|].
  split; [exact (Htrans eq_refl eq_refl)|].
  exact (Hasym eq_refl).
Defined.

(** X17.  A path that extends another by at least one segment sorts after
    it; in particular a parent sorts before its child, and never the other
    way round. *)
Theorem prefix_sorts_first :
  forall (p q : KeyOf.t),
    (forall ext, ext <> [] ->
       KeyOf.less_than p (KeyOf.Path (KeyOf.mk (KeyOf.parts p ++ ext))) = Return true)
    /\ (KeyOf.parent p = Return q ->
        KeyOf.less_than q (KeyOf.Path p) = Return true
        /\ KeyOf.less_than p (KeyOf.Path q) = Return false).
Proof.
  intros [ps] q. split.
  - intros ext Hext. apply less_than_path. unfold KeyOf.parts. cbn [KeyOf._parts].
    apply seq_ltb_prefix; [exact String.eqb_eq | exact Hext].
  - unfold KeyOf.parent. cbn [KeyOf._parts].
    destruct (Nat.ltb_spec (List.length ps) 2) as [|Hlen]; [discriminate|].
    intros H. injection H as <-. rewrite slice_to_minus_one.
    assert (Hne : ps <> []) by (intros ->; simpl in Hlen; lia).
    pose proof (app_removelast_last "" Hne) as E.
    assert (Hlt : tuple_ltb (removelast ps) ps = true).
    { rewrite E at 2. apply seq_ltb_prefix; [exact String.eqb_eq | discriminate]. }
    split; apply less_than_path; unfold KeyOf.parts; cbn [KeyOf._parts]; [exact Hlt|].
    destruct (tuple_ltb ps (removelast ps)) eqn:Hgt; [|reflexivity].
    pose proof (tuple_ltb_trans _ _ _ Hlt Hgt) as H.
    rewrite tuple_ltb_irrefl in H. discriminate.
Qed.

Lemma prefix_sorts_first_witness :
  (["city"] <> []
   /\ KeyOf.less_than (KeyOf.mk ["address"])
        (KeyOf.Path (KeyOf.mk (KeyOf.parts (KeyOf.mk ["address"]) ++ ["city"])))
      = Return true)
  /\ (KeyOf.parent (KeyOf.mk ["address"; "city"]) = Return (KeyOf.mk ["address"])
      /\ KeyOf.less_than (KeyOf.mk ["address"]) (KeyOf.Path (KeyOf.mk ["address"; "city"]))
         = Return true
      /\ KeyOf.less_than (KeyOf.mk ["address"; "city"]) (KeyOf.Path (KeyOf.mk ["address"]))
         = Return false).
Proof.
  assert (H : ["city"] <> []) by discriminate.
  split.
  - split; [exact H|].
    exact (proj1 (prefix_sorts_first (KeyOf.mk ["address"]) (KeyOf.mk [])) ["city"] H).
  - split; [reflexivity|].
    exact (proj2 (prefix_sorts_first (KeyOf.mk ["address"; "city"]) (KeyOf.mk ["address"]))
             eq_refl).
Defined.

(** ** Membership *)

Lemma contains_In (p : KeyOf.t) (s : string) :
  KeyOf.__contains__ p s = true <-> In s (KeyOf.parts p).
Proof.
  unfold KeyOf.__contains__, KeyOf.parts. rewrite existsb_exists. split.
  - intros (x & Hin & Hx%String.eqb_eq). now subst.
  - intros H. exists s. split; [exact H | apply String.eqb_refl].
Qed.

(** X18.  [segment in path] holds exactly for the segments of the path; the
    root and the leaf of a path are in it, and so is every segment of its
    parent. *)
Theorem contains_segments :
  forall p : KeyOf.t,
    (forall s, KeyOf.__contains__ p s = true <-> In s (KeyOf.parts p))
    /\ (forall r, KeyOf.root p = Return r -> KeyOf.__contains__ p r = true)
    /\ (forall l, KeyOf.leaf p = Return l -> KeyOf.__contains__ p l = true)
    /\ (forall q s, KeyOf.parent p = Return q ->
                    KeyOf.__contains__ q s = true -> KeyOf.__contains__ p s = true).
Proof.
  intros p. split; [apply contains_In|]. split; [|split].
  - intros r Hr. apply contains_In. destruct p as [[|x xs]]; unfold KeyOf.root in Hr;
      cbn [KeyOf._parts] in Hr.
    + rewrite seq_getitem_nil in Hr. discriminate.
    + rewrite seq_getitem_first in Hr. injection Hr as <-. now left.
  - intros l Hl. apply contains_In. destruct p as [ps]. unfold KeyOf.leaf in Hl.
    cbn [KeyOf._parts KeyOf.parts] in *.
    destruct ps as [|x xs]; [rewrite seq_getitem_nil in Hl; discriminate|].
    assert (Hne : x :: xs <> []) by discriminate.
    rewrite (app_removelast_last "" Hne) in Hl |- *.
    rewrite seq_getitem_last in Hl. injection Hl as <-.
    apply in_or_app. right. now left.
  - intros q s Hq Hs. apply contains_In. apply contains_In in Hs.
    destruct p as [ps]. unfold KeyOf.parent in Hq. cbn [KeyOf._parts] in Hq.
    destruct (Nat.ltb_spec (List.length ps) 2) as [|Hlen]; [discriminate|].
    injection Hq as <-. unfold KeyOf.parts in *. cbn [KeyOf._parts] in *.
    rewrite slice_to_minus_one in Hs.
    assert (Hne : ps <> []) by (intros ->; simpl in Hlen; lia).
    rewrite (app_removelast_last "" Hne). apply in_or_app. now left.
Qed.

Lemma contains_segments_witness :
  (KeyOf.root (KeyOf.mk ["address"; "city"]) = Return "address"
   /\ KeyOf.__contains__ (KeyOf.mk ["address"; "city"]) "address" = true)
  /\ (KeyOf.leaf (KeyOf.mk ["address"; "city"]) = Return "city"
      /\ KeyOf.__contains__ (KeyOf.mk ["address"; "city"]) "city" = true)
  /\ (KeyOf.parent (KeyOf.mk ["users"; "0"; "name"]) = Return (KeyOf.mk ["users"; "0"])
      /\ KeyOf.__contains__ (KeyOf.mk ["users"; "0"]) "0" = true
      /\ KeyOf.__contains__ (KeyOf.mk ["users"; "0"; "name"]) "0" = true).
Proof.
  destruct (contains_segments (KeyOf.mk ["address"; "city"])) as (_ & Hroot & Hleaf & _).
  destruct (contains_segments (KeyOf.mk ["users"; "0"; "name"])) as (_ & _ & _ & Hparent).
  split; [split; [reflexivity | exact (Hroot _ eq_refl)]|].
  split; [split; [reflexivity | exact (Hleaf _ eq_refl)]|].
  split; [reflexivity|]. split; [reflexivity|].
  exact (Hparent _ "0" eq_refl eq_refl).
Defined.

(** ** Immutability *)

Lemma setattr_refused_once_set (dict : list (string * value)) (name : string) (v : value) :
  existsb (fun kv => String.eqb (fst kv) "_parts") dict = true ->
  KeyOf.__setattr__ dict name v = Raise (AttributeError "KeyOf instances are immutable.").
Proof.
  intros H. unfold KeyOf.__setattr__. rewrite H. now rewrite andb_false_r.
Qed.

Lemma apply_writes_once_set (writes : list (string * value)) :
  forall dict,
    existsb (fun kv => String.eqb (fst kv) "_parts") dict = true ->
    apply_writes dict writes = dict.
Proof.
  induction writes as [|[name v] writes IH]; intros dict H; [reflexivity|].
  cbn [apply_writes]. rewrite (setattr_refused_once_set dict name v H). now apply IH.
Qed.

(** X19.  A path is written once.  [__setattr__] refuses every name other
    than [_parts], and refuses [_parts] too once the instance has it; so
    after any run of writes on a fresh instance the [__dict__] holds the
    value of the first write to [_parts] and nothing else, or is still
    empty when there was none. *)
Theorem parts_is_written_once :
  (forall dict name v,
      name <> "_parts" ->
      KeyOf.__setattr__ dict name v = Raise (AttributeError "KeyOf instances are immutable."))
  /\ (forall dict name v,
         In "_parts" (List.map fst dict) ->
         KeyOf.__setattr__ dict name v
         = Raise (AttributeError "KeyOf instances are immutable."))
  /\ (forall writes,
         apply_writes [] writes
         = match List.find (fun w => String.eqb (fst w) "_parts") writes with
           | Some (_, v) => [("_parts", v)]
           | None => []
           end).
Proof.
  split; [|split].
  - intros dict name v H. unfold KeyOf.__setattr__.
    destruct (String.eqb_spec name "_parts") as [E|_]; [now destruct H | reflexivity].
  - intros dict name v H. apply setattr_refused_once_set.
    apply existsb_exists. apply in_map_iff in H. destruct H as ([k w] & Hk & Hin).
    exists (k, w). split; [exact Hin|]. cbn [fst] in *. subst k. reflexivity.
  - induction writes as [|[name v] writes IH]; [reflexivity|].
    cbn [apply_writes List.find fst]. unfold KeyOf.__setattr__. cbn [existsb negb].
    rewrite andb_true_r.
    destruct (String.eqb_spec name "_parts") as [->|_]; [|exact IH].
    cbn [app]. now apply apply_writes_once_set.
Qed.

Lemma parts_is_written_once_witness :
  ("name" <> "_parts"
   /\ KeyOf.__setattr__ [] "name" (VStr "x")
      = Raise (AttributeError "KeyOf instances are immutable."))
  /\ (In "_parts" (List.map fst [("_parts", VTuple [VStr "id"])])
      /\ KeyOf.__setattr__ [("_parts", VTuple [VStr "id"])] "_parts" (VTuple [VStr "hacked"])
         = Raise (AttributeError "KeyOf instances are immutable."))
  /\ apply_writes []
       [("name", VStr "x"); ("_parts", VTuple [VStr "id"]);
        ("_parts", VTuple [VStr "hacked"])]
     = [("_parts", VTuple [VStr "id"])].
Proof.
  destruct parts_is_written_once as (Hother & Hset & Hrun).
  assert (H1 : "name" <> "_parts") by discriminate.
  assert (H2 : In "_parts" (List.map fst [("_parts", VTuple [VStr "id"])]))
    by (now left).
  split; [split; [exact H1 | exact (Hother [] "name" (VStr "x") H1)]|].
  split; [split; [exact H2 | exact (Hset _ "_parts" (VTuple [VStr "hacked"]) H2)]|].
  exact (Hrun _).
Defined.

(** ** Replay: prefixes and the segment that fails *)

Section ReplayPrefixes.

Variable class_attr : value -> string -> option value.

Local Abbreviation getattr := (KeyOf.getattr class_attr).
Local Abbreviation from_loop := (KeyOf.from_loop class_attr).
Local Abbreviation from_ := (KeyOf.from_ class_attr).

Lemma from_loop_split (pre rest : list string) :
  forall parts obj i c v,
    from_loop parts obj None i (pre ++ rest) c = Return v ->
    exists cur,
      from_loop parts obj None i pre c = Return cur
      /\ from_loop parts obj None (i + List.length pre) rest cur = Return v.
Proof.
  induction pre as [|part pre IH]; intros parts obj i c v H.
  - exists c. split; [reflexivity|]. cbn [List.length]. now rewrite Nat.add_0_r.
  - cbn [app] in H. cbn [List.length].
    replace (i + S (List.length pre)) with (S i + List.length pre) by lia.
    destruct (is_None c) eqn:Hc.
    { cbn [KeyOf.from_loop] in H. rewrite Hc in H. discriminate. }
    assert (Hn : c <> VNone) by (intros ->; discriminate).
    destruct (getattr c part) as [w|e] eqn:Ha.
    + rewrite (from_loop_attr class_attr parts obj None i part (pre ++ rest) c Hn w Ha) in H.
      destruct (IH parts obj (S i) w v H) as (cur & Hp & Hr).
      exists cur. split; [|exact Hr].
      now rewrite (from_loop_attr class_attr parts obj None i part pre c Hn w Ha).
    + destruct (getattr_raises class_attr c part e Ha) as [msg ->].
      destruct (KeyOf.item_access c part) as [w|e] eqn:Hi.
      * rewrite (from_loop_item class_attr parts obj None i part (pre ++ rest) c Hn msg w
                   Ha Hi) in H.
        destruct (IH parts obj (S i) w v H) as (cur & Hp & Hr).
        exists cur. split; [|exact Hr].
        now rewrite (from_loop_item class_attr parts obj None i part pre c Hn msg w Ha Hi).
      * rewrite (from_loop_item_error class_attr parts obj None i part (pre ++ rest) c Hn
                   msg e Ha Hi) in H.
        destruct (KeyOf.lookup_error e); discriminate.
Qed.

(** X21.  Resolution is closed under prefixes: when a path replays without
    a default to a value, every prefix of it replays to a value as well, the
    rest of the path replays from that value to the same result, and the
    value is not [None] unless the prefix is the whole path. *)
Theorem prefixes_resolve :
  forall (pre rest : list string) (obj v : value),
    from_ (KeyOf.mk (pre ++ rest)) obj None = Return v ->
    exists cur,
      from_ (KeyOf.mk pre) obj None = Return cur
      /\ from_ (KeyOf.mk rest) cur None = Return v
      /\ (rest <> [] -> cur <> VNone).
Proof.
  intros pre rest obj v H. unfold KeyOf.from_ in *. cbn [KeyOf._parts] in *.
  destruct (from_loop_split pre rest (pre ++ rest) obj 0 obj v H) as (cur & Hp & Hr).
  exists cur. split; [|split].
  - exact (from_loop_return_indep class_attr pre _ _ _ pre obj 0 obj cur Hp).
  - exact (from_loop_return_indep class_attr rest _ _ _ rest cur 0 cur v Hr).
  - intros Hne ->. destruct rest as [|part rest]; [now destruct Hne|]. discriminate.
Qed.

(** X22.  The segment that fails is the one reported.  When the segments
    before [part] replay to a value other than [None] on which attribute
    lookup fails and item access raises [KeyError], [IndexError] or
    [TypeError]: without a default the call raises [AttributeError] naming
    [part], the type of that value and the dot-joined segments before
    [part]; with a default it returns the default, whatever segments
    follow. *)
Theorem unresolved_segment_is_reported :
  forall (pre : list string) (part : string) (rest : list string) (obj cur : value)
         (msg : string) (e : exn),
    from_ (KeyOf.mk pre) obj None = Return cur ->
    cur <> VNone ->
    getattr cur part = Raise (AttributeError msg) ->
    KeyOf.item_access cur part = Raise e ->
    KeyOf.lookup_error e = true ->
    from_ (KeyOf.mk (pre ++ part :: rest)) obj None
    = Raise (AttributeError
               ("Cannot resolve '" ++ part ++ "' on " ++ type_name cur
                ++ " (path: '" ++ KeyOf.to_dot (KeyOf.mk pre) ++ "')"))
    /\ forall d, from_ (KeyOf.mk (pre ++ part :: rest)) obj (Some d) = Return d.
Proof.
  intros pre part rest obj cur msg e Hpre Hn Ha Hi He. split; [|intros d].
  - rewrite (from_prefix class_attr pre (part :: rest) obj cur None Hpre).
    rewrite (from_loop_item_error class_attr _ obj None _ part rest cur Hn msg e Ha Hi).
    rewrite He. unfold KeyOf.msg_unresolved. now rewrite slice_prefix.
  - rewrite (from_prefix class_attr pre (part :: rest) obj cur (Some d) Hpre).
    rewrite (from_loop_item_error class_attr _ obj (Some d) _ part rest cur Hn msg e Ha Hi).
    now rewrite He.
Qed.

End ReplayPrefixes.

Lemma prefixes_resolve_witness :
  KeyOf.from_ sample_class_attr (KeyOf.mk (["users"; "0"] ++ ["name"])) users_dict None
  = Return (VStr "Alice")
  /\ exists cur,
       KeyOf.from_ sample_class_attr (KeyOf.mk ["users"; "0"]) users_dict None = Return cur
       /\ KeyOf.from_ sample_class_attr (KeyOf.mk ["name"]) cur None = Return (VStr "Alice")
       /\ (["name"] <> [] -> cur <> VNone).
Proof.
  split; [reflexivity|].
  exact (prefixes_resolve sample_class_attr ["users"; "0"] ["name"] users_dict
           (VStr "Alice") eq_refl).
Defined.

Lemma unresolved_segment_is_reported_witness :
  KeyOf.from_ sample_class_attr (KeyOf.mk ["users"]) users_dict None
  = Return (VList [VDict [(KStr "name", VStr "Alice")]])
  /\ VList [VDict [(KStr "name", VStr "Alice")]] <> VNone
  /\ KeyOf.getattr sample_class_attr (VList [VDict [(KStr "name", VStr "Alice")]]) "99"
     = Raise (AttributeError "'list' object has no attribute '99'")
  /\ KeyOf.item_access (VList [VDict [(KStr "name", VStr "Alice")]]) "99"
     = Raise (IndexError "list index out of range")
  /\ KeyOf.lookup_error (IndexError "list index out of range") = true
  /\ KeyOf.from_ sample_class_attr (KeyOf.mk (["users"] ++ "99" :: ["name"])) users_dict None
     = Raise (AttributeError "Cannot resolve '99' on list (path: 'users')")
  /\ forall d,
       KeyOf.from_ sample_class_attr (KeyOf.mk (["users"] ++ "99" :: ["name"])) users_dict
         (Some d)
       = Return d.
Proof.
  assert (Hn : VList [VDict [(KStr "name", VStr "Alice")]] <> VNone) by discriminate.
  split; [reflexivity|]. split; [exact Hn|]. split; [reflexivity|].
  split; [reflexivity|]. split; [reflexivity|].
  exact (unresolved_segment_is_reported sample_class_attr ["users"] "99" ["name"]
           users_dict (VList [VDict [(KStr "name", VStr "Alice")]])
           "'list' object has no attribute '99'" (IndexError "list index out of range")
           eq_refl Hn eq_refl eq_refl eq_refl).
Defined.
